(** * Elevated Vision: shadow texture sizing and the per-source shadow cache

    A shallow embedding of [scripts/glsl/patch_lighting_shaders.js] (the
    fragment patch, [ShadowTextureRenderer] and its line-of-sight subclass,
    the [RenderedPointSource] wraps and the wall hooks) and of the [Segment]
    class of the visibility-polygon draft.

    Conventions of the model.
    - A JavaScript number is an exact rational ([Q]); rounding, [NaN] and the
      infinities are outside the model.  [x / 0] is [0] in [Q], so results
      are only meaningful where the divisor is not zero.  What is stated of
      the resolution of a render texture is therefore its value as one
      quotient and how it compares; nothing is stated of products of that
      quotient, which the doubles of the program give only up to rounding.
    - Objects of classes that are defined outside these files (PIXI meshes,
      textures, geometries, the shader patcher) are opaque handles.  Every
      call the code makes on such an object is recorded, in order, in a
      trace of [Event]s; the calls are assumed to return normally.  Calls
      of [console.log] are not recorded.
    - A function body runs in the monad [M]: it reads and writes a state,
      appends to the trace, and either returns or throws. *)

From Stdlib Require Import QArith Qminmax Qabs Qround Lqa Lia.
From stdpp Require Import base gmap sets list strings.

(** ** Completions, traces and the monad of function bodies *)

Record Point : Type := mkPoint { px : Q; py : Q }.

Inductive UniformValue : Type :=
| UBool (b : bool)
| UBaseTexture (rt : nat).

(** One interaction with the host (PIXI, the canvas, classes of other files). *)
Inductive Event : Type :=
| ECreateTexture (rt : nat) (width height resolution : Q)
| ESetResolution (rt : nat) (resolution : Q)
| EResize (rt : nat) (width height : Q)
| EDestroyTexture (rt : nat)
| ESetPosition (obj : nat) (p : Point)
| ESetScale (obj : nat) (p : Point)
| ERender (mesh rt : nat)
| ENew (class : string) (obj : nat) (args : list nat)
| ECall (obj : nat) (method : string) (args : list nat)
| ESetUniform (layer name : string) (value : UniformValue)
| ERemoveChild (container child : nat).

Inductive outcome (A : Type) : Type :=
| Ret (a : A)
| Throw (err : string).
Arguments Ret {A} a.
Arguments Throw {A} err.

Record Run (S A : Type) : Type := mkRun {
  outcome_of : outcome A;
  state_of : S;
  trace_of : list Event
}.
Arguments mkRun {S A} _ _ _.
Arguments outcome_of {S A} _.
Arguments state_of {S A} _.
Arguments trace_of {S A} _.

Definition M (S A : Type) : Type := S -> Run S A.

Definition ret {S A} (a : A) : M S A := fun s => mkRun (Ret a) s [].

Definition throw {S A} (err : string) : M S A := fun s => mkRun (Throw err) s [].

Definition bind {S A B} (m : M S A) (k : A -> M S B) : M S B :=
  fun s =>
    let r := m s in
    match outcome_of r with
    | Ret a =>
        let r' := k a (state_of r) in
        mkRun (outcome_of r') (state_of r') (trace_of r ++ trace_of r')
    | Throw err => mkRun (Throw err) (state_of r) (trace_of r)
    end.

Declare Scope js_scope.
Delimit Scope js_scope with js.
Notation "x <- m ;; k" := (bind m (fun x => k))
  (at level 100, m at next level, right associativity) : js_scope.
Notation "m ;; k" := (bind m (fun _ => k))
  (at level 100, right associativity) : js_scope.

Definition get {S} : M S S := fun s => mkRun (Ret s) s [].

Definition put {S} (s : S) : M S unit := fun _ => mkRun (Ret tt) s [].

Definition emit {S} (e : Event) : M S unit := fun s => mkRun (Ret tt) s [e].

Definition when {S} (c : bool) (m : M S unit) : M S unit :=
  if c then m else ret tt.

(** ** [addShadowFragmentCode]: a [try] whose [finally] returns *)

(** Completion of a JavaScript statement. *)
Inductive completion (A : Type) : Type :=
| Normal
| Return (a : A)
| Thrown (err : string).
Arguments Normal {A}.
Arguments Return {A} a.
Arguments Thrown {A} err.

(** [try { body } finally { fin }] over a store [V] of local variables: [fin]
    always runs on the store [body] left, and an abrupt completion of [fin]
    replaces the completion of [body]. *)
Definition try_finally {V A} (body fin : V -> completion A * V) (v : V)
  : completion A * V :=
  let (cb, v1) := body v in
  let (cf, v2) := fin v1 in
  match cf with
  | Normal => (cb, v2)
  | _ => (cf, v2)
  end.

(** What a call of a function whose body completed with [c] gives its
    caller; falling off the end returns [undefined], here [None]. *)
Definition call_result {A} (c : completion A) : outcome (option A) :=
  match c with
  | Normal => Ret None
  | Return a => Ret (Some a)
  | Thrown err => Throw err
  end.

(** The methods of [ShaderPatcher] (perfect-vision/shader-patcher.js, not
    part of these files) that the patch uses.  Each may throw. *)
Class ShaderPatcherAPI (P : Type) : Type := {
  newShaderPatcher : string -> outcome P;
  setSource : P -> string -> outcome P;
  addUniform : P -> string -> string -> outcome P;
  replace : P -> string -> string -> outcome P;
  getSource : P -> outcome string
}.

Definition and_then {A B} (o : outcome A) (k : A -> outcome B) : outcome B :=
  match o with
  | Ret a => k a
  | Throw err => Throw err
  end.

(** The source of the regular expression [/gl_FragColor = /]. *)
Definition shadowFragmentPattern : string := "gl_FragColor = ".

Definition shadowFragmentReplacement : string :=
  "
        if ( uEVShadows ) {
          vec4 EV_shadowTexel = texture2D(uEVShadowSampler, vUvs);
          float EV_lightAmount = EV_shadowTexel.r;
          if ( EV_shadowTexel.g < 0.5) EV_lightAmount *= EV_shadowTexel.b;
          depth *= EV_lightAmount;
        }
        gl_FragColor =".

(** The right-hand side of the assignment inside the [try] block. *)
Definition patchChain {P} `{ShaderPatcherAPI P} (source : string) : outcome string :=
  and_then (newShaderPatcher "frag") (fun p =>
  and_then (setSource p source) (fun p =>
  and_then (addUniform p "uEVShadowSampler" "sampler2D") (fun p =>
  and_then (addUniform p "uEVShadows" "bool") (fun p =>
  and_then (replace p shadowFragmentPattern shadowFragmentReplacement) (fun p =>
  getSource p))))).

(** [source = <chain>;]: the variable is assigned only if the chain returns. *)
Definition tryBlock {P} `{ShaderPatcherAPI P} (source : string)
  : completion string * string :=
  match patchChain source with
  | Ret s => (Normal, s)
  | Throw err => (Thrown err, source)
  end.

(** [return source;] *)
Definition finallyBlock (source : string) : completion string * string :=
  (Return source, source).

Definition addShadowFragmentCode {P} `{ShaderPatcherAPI P} (source : string)
  : outcome (option string) :=
  call_result (fst (try_finally tryBlock finallyBlock source)).

(** ** Sources, the objects a cache holds, and the host *)

Inductive SourceClass : Type :=
| LightSource
| GlobalLightSource
| VisionSource
| SoundSource.

Definition instanceof_GlobalLightSource (c : SourceClass) : bool :=
  match c with GlobalLightSource => true | _ => false end.

Definition instanceof_VisionSource (c : SourceClass) : bool :=
  match c with VisionSource => true | _ => false end.

Inductive RendererClass : Type :=
| ShadowTextureRenderer
| ShadowVisionLOSTextureRenderer.

(** An instance of [ShadowTextureRenderer] or of its subclass.  Its [source]
    field is not stored: a renderer held in the cache of a source was
    constructed for that source, and its getters read that source. *)
Record Renderer : Type := mkRenderer {
  r_class : RendererClass;
  r_id : nat;
  mesh : nat;
  renderTexture : nat
}.

(** A JavaScript object held in a slot of the cache: an instance of a class
    of another file ([External]), the wall geometry of a source with the ids
    of the walls it indexes ([WallGeometry], see [index_addWall] below), or
    a renderer of these files ([Rendering]). *)
Inductive Obj : Type :=
| External (id : nat)
| WallGeometry (id : nat) (walls : gset string)
| Rendering (r : Renderer).

Definition oid (o : Obj) : nat :=
  match o with
  | External id => id
  | WallGeometry id _ => id
  | Rendering r => r_id r
  end.

(** [source[MODULE_ID]]: absent, or an object with named slots.  A slot that
    holds [undefined] or [null] is an absent key. *)
Record Source : Type := mkSource {
  constructor : SourceClass;
  source_x : Q;
  source_y : Q;
  radius : Q;
  elevation : Q;
  ev : option (gmap string Obj)
}.

Record WallDocument : Type := mkWall {
  wall_id : string;
  wall_object : nat
}.

(** What the code reads from its environment. *)
Record Host : Type := mkHost {
  canvas_dimensions_width : Q;
  canvas_dimensions_height : Q;
  canvas_effects_EVshadows : option nat;
  shading_is_webgl : bool;
  scene_walls : list WallDocument;
  relevant : Source -> WallDocument -> bool;
  WALL_COORDINATES : list string;
  WALL_RESTRICTED : list string
}.

(** State of a function that runs on one source: the source ([this]) and the
    next unused object identity. *)
Record St : Type := mkSt {
  this : Source;
  next_id : nat
}.

Definition fresh : M St nat :=
  fun st => mkRun (Ret (next_id st)) (mkSt (this st) (S (next_id st))) [].

Definition with_ev (s : Source) (c : option (gmap string Obj)) : Source :=
  mkSource (constructor s) (source_x s) (source_y s) (radius s) (elevation s) c.

Definition TypeError : string := "TypeError".

(** [ev.k], read. *)
Definition slot (k : string) : M St (option Obj) :=
  fun st =>
    match ev (this st) with
    | Some c => mkRun (Ret (c !! k)) st []
    | None => mkRun (Throw TypeError) st []
    end.

(** [ev.k = o] *)
Definition set_slot (k : string) (o : Obj) : M St unit :=
  fun st =>
    match ev (this st) with
    | Some c => mkRun (Ret tt) (mkSt (with_ev (this st) (Some (<[k:=o]> c))) (next_id st)) []
    | None => mkRun (Throw TypeError) st []
    end.

(** [ev.k = undefined] *)
Definition unset_slot (k : string) : M St unit :=
  fun st =>
    match ev (this st) with
    | Some c => mkRun (Ret tt) (mkSt (with_ev (this st) (Some (delete k c))) (next_id st)) []
    | None => mkRun (Throw TypeError) st []
    end.

(** [o.method(args)] for a method that no class of these files defines. *)
Definition callMethod (o : Obj) (method : string) (args : list nat) : M St unit :=
  match o with
  | Rendering _ => throw TypeError
  | _ => emit (ECall (oid o) method args)
  end.

(** [ev.k?.method(args)] *)
Definition optCall (k method : string) (args : list nat) : M St unit :=
  (o <- slot k ;;
   match o with
   | Some o => callMethod o method args
   | None => ret tt
   end)%js.

(** ** [ShadowTextureRenderer] and [ShadowVisionLOSTextureRenderer] *)

Section Renderers.
Variable host : Host.
Local Open Scope Q_scope.

Definition MAX_TEXTURE_SIZE : Q := 4096.

Definition width (c : RendererClass) (source : Source) : Q :=
  match c with
  | ShadowTextureRenderer => radius source * 2
  | ShadowVisionLOSTextureRenderer => canvas_dimensions_width host
  end.

Definition height (c : RendererClass) (source : Source) : Q :=
  match c with
  | ShadowTextureRenderer => radius source * 2
  | ShadowVisionLOSTextureRenderer => canvas_dimensions_height host
  end.

Definition resolution (c : RendererClass) (source : Source) : Q :=
  let width := width c source in
  let height := height c source in
  let resolution := 1 in
  let maxSize := Qmin MAX_TEXTURE_SIZE (resolution * Qmax width height) in
  if Qle_bool height width then maxSize / width else maxSize / height.

(** [PIXI.Point.fromObject(o).translate(dx, dy)] *)
Definition translate (p : Point) (dx dy : Q) : Point :=
  mkPoint (px p + dx) (py p + dy).

Definition topLeft (c : RendererClass) (source : Source) : Point :=
  match c with
  | ShadowTextureRenderer =>
      translate (mkPoint (source_x source) (source_y source))
        (- width c source * (1 # 2)) (- height c source * (1 # 2))
  | ShadowVisionLOSTextureRenderer => mkPoint 0 0
  end.

Definition renderShadowMeshToTexture (r : Renderer) : M St unit :=
  (st <- get ;;
   let tl := topLeft (r_class r) (this st) in
   emit (ESetPosition (mesh r) (mkPoint (- px tl) (- py tl))) ;;
   emit (ERender (mesh r) (renderTexture r)))%js.

(** The [width], [height] and [resolution] fields of the object
    [configureTexture] returns ([scaleMode] is always [NEAREST]). *)
Definition configureTexture (c : RendererClass) (source : Source) : Q * Q * Q :=
  (width c source, height c source, resolution c source).

(** [new C(source, mesh)] for [C] one of the two renderer classes; the clear
    color and the alpha mode it sets on the new texture are part of the
    creation event. *)
Definition newRenderer (c : RendererClass) (mesh : nat) : M St Renderer :=
  (st <- get ;;
   id <- fresh ;;
   rt <- fresh ;;
   let '(w, h, res) := configureTexture c (this st) in
   emit (ECreateTexture rt w h res) ;;
   ret (mkRenderer c id mesh rt))%js.

Definition updateSourceRadius (r : Renderer) : M St unit :=
  (st <- get ;;
   emit (ESetResolution (renderTexture r) (resolution (r_class r) (this st))) ;;
   emit (EResize (renderTexture r) (width (r_class r) (this st)) (height (r_class r) (this st))) ;;
   renderShadowMeshToTexture r)%js.

Definition update (r : Renderer) : M St unit :=
  renderShadowMeshToTexture r.

Definition destroy (r : Renderer) : M St unit :=
  emit (EDestroyTexture (renderTexture r)).

(** [o.name()] where [name] is the method [f] of the renderer classes. *)
Definition callRenderer (f : Renderer -> M St unit) (name : string) (o : Obj)
  : M St unit :=
  match o with
  | Rendering r => f r
  | _ => emit (ECall (oid o) name [])
  end.

(** [ev.k?.name()] *)
Definition optCallRenderer (k : string) (f : Renderer -> M St unit) (name : string)
  : M St unit :=
  (o <- slot k ;;
   match o with
   | Some o => callRenderer f name o
   | None => ret tt
   end)%js.

(** [o.renderTexture], read; [None] is [undefined]. *)
Definition renderTexture_of (o : Obj) : option nat :=
  match o with
  | Rendering r => Some (renderTexture r)
  | _ => None
  end.

End Renderers.

(** ** The wall index of a source *)

(** Modelled from the spec: [PointSourceShadowWallGeometry] is defined in
    glsl/SourceShadowWallGeometry.js, which is not among these files.  The
    spec's SourceWallIndex is created from a full wall scan and holds the
    walls that are relevant to its source. *)
Definition index_create (host : Host) (source : Source) : gset string :=
  list_to_set (wall_id <$> filter (fun w => relevant host source w = true) (scene_walls host)).

(** Modelled from the spec: [addWall(wall)] accepts the wall into the index
    when it is relevant to the source and rejects it otherwise. *)
Definition index_addWall (host : Host) (source : Source) (w : WallDocument)
  (walls : gset string) : gset string :=
  if relevant host source w then {[wall_id w]} ∪ walls else walls.

(** Modelled from the spec: [updateWall(id, changeDescriptor)] re-evaluates
    relevance and either updates, inserts, or evicts the wall. *)
Definition index_updateWall (host : Host) (source : Source) (w : WallDocument)
  (walls : gset string) : gset string :=
  if relevant host source w then {[wall_id w]} ∪ walls else walls ∖ {[wall_id w]}.

(** Modelled from the spec: [removeWall(id)] is a no-op if the wall is absent. *)
Definition index_removeWall (id : string) (walls : gset string) : gset string :=
  walls ∖ {[id]}.

(** The walls a cache indexes; empty when it has no wall geometry. *)
Definition index_of (c : gmap string Obj) : gset string :=
  match c !! "wallGeometry" with
  | Some (WallGeometry _ walls) => walls
  | _ => ∅
  end.

(** [ev.wallGeometry?.method(arg)] for the three index methods: the index
    [f] computes replaces the old one, and the call is recorded. *)
Definition optCallIndex (method : string) (arg : nat)
  (f : Source -> gset string -> gset string) : M St unit :=
  (o <- slot "wallGeometry" ;;
   match o with
   | None => ret tt
   | Some (WallGeometry id walls) =>
       st <- get ;;
       emit (ECall id method [arg]) ;;
       set_slot "wallGeometry" (WallGeometry id (f (this st) walls))
   | Some o => callMethod o method [arg]
   end)%js.

(** ** Wraps of [RenderedPointSource] and the hooks *)

Section Cache.
Variable host : Host.
Local Open Scope Q_scope.

(** [new PolygonMesher(...).triangulate(geometry)] fills the geometry it is
    given, or a new one when it is given [null], and returns it. *)
Definition updateLOSGeometryVisionSource : M St unit :=
  (pm <- fresh ;;
   emit (ENew "PolygonMesher" pm []) ;;
   g <- slot "losGeometry" ;;
   match g with
   | Some o =>
       emit (ECall pm "triangulate" [oid o]) ;;
       set_slot "losGeometry" o
   | None =>
       id <- fresh ;;
       emit (ECall pm "triangulate" []) ;;
       set_slot "losGeometry" (External id)
   end)%js.

(** [ev.shadowQuadMesh?.updateGeometry(ev.shadowRenderer.sourceBounds)]: the
    argument is evaluated only when the quad mesh is set, and reading a
    property of an unset [shadowRenderer] throws. *)
Definition updateQuadMeshGeometry : M St unit :=
  (q <- slot "shadowQuadMesh" ;;
   match q with
   | None => ret tt
   | Some q =>
       r <- slot "shadowRenderer" ;;
       match r with
       | None => throw TypeError
       | Some _ => callMethod q "updateGeometry" []
       end
   end)%js.

(** [ev.shadowVisionMask.position.copyFrom(p)]: a renderer has no
    [position], so the call throws on it as on an unset mask. *)
Definition maskCopyPosition (p : Point) : M St unit :=
  (m <- slot "shadowVisionMask" ;;
   match m with
   | Some (Rendering _) | None => throw TypeError
   | Some o => emit (ESetPosition (oid o) p)
   end)%js.

(** [ev.shadowVisionMask.scale = p] *)
Definition maskSetScale (p : Point) : M St unit :=
  (m <- slot "shadowVisionMask" ;;
   match m with
   | None => throw TypeError
   | Some o => emit (ESetScale (oid o) p)
   end)%js.

Definition hasOwn (changes : gset string) (k : string) : bool :=
  bool_decide (k ∈ changes).

(** What the wrap does once the wrapped method returned. *)
Definition configureShadows (changes : gset string) : M St unit :=
  (st <- get ;;
   match ev (this st) with
   | None => ret tt
   | Some _ =>
       let changedPosition := hasOwn changes "x" || hasOwn changes "y" in
       let changedRadius := hasOwn changes "radius" in
       let changedElevation := hasOwn changes "elevation" in
       when (changedPosition || changedElevation || changedRadius)
         (optCall "geom" "refreshWalls" [] ;;
          optCall "shadowMesh" "updateLightPosition" [] ;;
          optCall "shadowVisionLOSMesh" "updateLightPosition" [] ;;
          when (instanceof_VisionSource (constructor (this st)))
            updateLOSGeometryVisionSource) ;;
       if changedPosition then
         optCallRenderer "shadowRenderer" (update host) "update" ;;
         optCallRenderer "shadowVisionLOSRenderer" (update host) "update" ;;
         updateQuadMeshGeometry ;;
         maskCopyPosition (mkPoint (source_x (this st)) (source_y (this st)))
       else if changedRadius then
         optCallRenderer "shadowRenderer" (updateSourceRadius host) "updateSourceRadius" ;;
         updateQuadMeshGeometry ;;
         maskSetScale (mkPoint (radius (this st)) (radius (this st)))
       else if changedElevation then
         optCallRenderer "shadowRenderer" (update host) "update" ;;
         optCallRenderer "shadowVisionLOSRenderer" (update host) "update"
       else ret tt
   end)%js.

(** [wrapped] is the method of the host that the wrap replaces; the keys of
    [changes] are its own properties. *)
Definition _configureRenderedPointSource (wrapped : gset string -> M St unit)
  (changes : gset string) : M St unit :=
  (wrapped changes ;; configureShadows changes)%js.

Definition assets : list string :=
  [ "shadowQuadMesh"; "shadowRenderer"; "shadowMesh"; "wallGeometry";
    "shadowVisionMask"; "shadowVisionLOSMask"; "shadowVisionLOSMesh";
    "shadowVisionLOSRenderer"; "losGeometry" ].

(** One turn of the loop over [assets]. *)
Definition destroyAsset (asset : string) : M St unit :=
  (o <- slot asset ;;
   match o with
   | None => ret tt
   | Some o =>
       callRenderer destroy "destroy" o ;;
       unset_slot asset
   end)%js.

Fixpoint forEach {A} (body : A -> M St unit) (l : list A) : M St unit :=
  match l with
  | [] => ret tt
  | a :: l => (body a ;; forEach body l)%js
  end.

Definition destroyRenderedPointSource (wrapped : M St unit) : M St unit :=
  (st <- get ;;
   match ev (this st) with
   | None => wrapped
   | Some c =>
       match c !! "shadowQuadMesh", canvas_effects_EVshadows host with
       | Some q, Some container => emit (ERemoveChild container (oid q))
       | _, _ => ret tt
       end ;;
       forEach destroyAsset assets ;;
       wrapped
   end)%js.

(** [ev.k] where the code goes on to use the value as an object. *)
Definition getSlot (k : string) : M St Obj :=
  (o <- slot k ;;
   match o with
   | Some o => ret o
   | None => throw TypeError
   end)%js.

Definition optArg (o : option Obj) : list nat :=
  match o with
  | Some o => [oid o]
  | None => []
  end.

Definition optId (o : option nat) : list nat :=
  match o with
  | Some n => [n]
  | None => []
  end.

(** [C.create(ev.k.renderTexture)] for a shader class [C] of another file. *)
Definition createShader (class k : string) : M St nat :=
  (r <- getSlot k ;;
   shader <- fresh ;;
   emit (ENew class shader (optId (renderTexture_of r))) ;;
   ret shader)%js.

Definition initializeSourceShadersHook : M St unit :=
  (st <- get ;;
   if instanceof_GlobalLightSource (constructor (this st)) then ret tt else
   match ev (this st) with
   | None => put (mkSt (with_ev (this st) (Some ∅)) (next_id st))
   | Some _ => ret tt
   end ;;
   (* Build the geometry. *)
   g <- slot "wallGeometry" ;;
   match g with
   | Some _ => ret tt
   | None =>
       id <- fresh ;;
       emit (ENew "PointSourceShadowWallGeometry" id []) ;;
       set_slot "wallGeometry" (WallGeometry id (index_create host (this st)))
   end ;;
   (* Build the shadow mesh. *)
   m <- slot "shadowMesh" ;;
   match m with
   | Some _ => ret tt
   | None =>
       g <- slot "wallGeometry" ;;
       id <- fresh ;;
       emit (ENew "ShadowWallPointSourceMesh" id (optArg g)) ;;
       set_slot "shadowMesh" (External id) ;;
       let EVshadows := shading_is_webgl host in
       emit (ESetUniform "background" "EVshadows" (UBool EVshadows)) ;;
       emit (ESetUniform "coloration" "EVshadows" (UBool EVshadows)) ;;
       emit (ESetUniform "illumination" "EVshadows" (UBool EVshadows))
   end ;;
   (* Build the shadow render texture. *)
   r <- slot "shadowRenderer" ;;
   match r with
   | Some _ => ret tt
   | None =>
       m <- getSlot "shadowMesh" ;;
       r <- newRenderer host ShadowTextureRenderer (oid m) ;;
       set_slot "shadowRenderer" (Rendering r)
   end ;;
   r <- getSlot "shadowRenderer" ;;
   callRenderer (renderShadowMeshToTexture host) "renderShadowMeshToTexture" r ;;
   (* Build the vision mask. *)
   k <- slot "shadowVisionMask" ;;
   match k with
   | Some _ => ret tt
   | None =>
       shader <- createShader "ShadowVisionMaskShader" "shadowRenderer" ;;
       id <- fresh ;;
       emit (ENew "PIXI.Mesh" id [shader]) ;;
       set_slot "shadowVisionMask" (External id) ;;
       emit (ESetPosition id (mkPoint (source_x (this st)) (source_y (this st)))) ;;
       emit (ESetScale id (mkPoint (radius (this st)) (radius (this st))))
   end ;;
   (* If vision source, build extra LOS geometry and a mask for the LOS. *)
   l <- slot "shadowVisionLOSMesh" ;;
   match instanceof_VisionSource (constructor (this st)), l with
   | true, None =>
       g <- slot "visionLOSShadowGeometry" ;;
       id <- fresh ;;
       emit (ENew "ShadowWallPointSourceMesh" id (optArg g)) ;;
       set_slot "shadowVisionLOSMesh" (External id) ;;
       r <- newRenderer host ShadowVisionLOSTextureRenderer id ;;
       set_slot "shadowVisionLOSRenderer" (Rendering r) ;;
       renderShadowMeshToTexture host r ;;
       updateLOSGeometryVisionSource ;;
       shader <- createShader "ShadowVisionMaskTokenLOSShader" "shadowVisionLOSRenderer" ;;
       g <- slot "losGeometry" ;;
       id <- fresh ;;
       emit (ENew "PIXI.Mesh" id (optArg g ++ [shader])) ;;
       set_slot "shadowVisionLOSMask" (External id)
   | _, _ => ret tt
   end ;;
   (* Testing use only. *)
   q <- slot "shadowQuadMesh" ;;
   match q with
   | Some _ => ret tt
   | None =>
       shader <- createShader "TestShadowShader" "shadowRenderer" ;;
       id <- fresh ;;
       emit (ENew "EVQuadMesh" id [shader]) ;;
       set_slot "shadowQuadMesh" (External id)
   end ;;
   r <- getSlot "shadowRenderer" ;;
   match renderTexture_of r with
   | None => throw TypeError
   | Some rt =>
       emit (ESetUniform "illumination" "uEVShadowSampler" (UBaseTexture rt)) ;;
       emit (ESetUniform "coloration" "uEVShadowSampler" (UBaseTexture rt)) ;;
       emit (ESetUniform "background" "uEVShadowSampler" (UBaseTexture rt))
   end)%js.

(** *** Wall document hooks *)

(** The three collections the hooks spread into [sources], and the array
    after the hook ran. *)
Record Canvas : Type := mkCanvas {
  effects_lightSources : list Source;
  effects_visionSources : list Source;
  sounds_sources : list Source
}.

Record Scene : Type := mkScene {
  sources : list Source;
  scene_next_id : nat
}.

Definition sources_of (canvas : Canvas) : list Source :=
  effects_lightSources canvas ++ effects_visionSources canvas ++ sounds_sources canvas.

(** [for ( const src of sources ) body]: a throw ends the loop and leaves the
    remaining sources as they were. *)
Fixpoint forSources (body : M St unit) (l : list Source) (n : nat) : Run Scene unit :=
  match l with
  | [] => mkRun (Ret tt) (mkScene [] n) []
  | src :: l =>
      let r := body (mkSt src n) in
      match outcome_of r with
      | Ret _ =>
          let r' := forSources body l (next_id (state_of r)) in
          mkRun (outcome_of r')
            (mkScene (this (state_of r) :: sources (state_of r')) (scene_next_id (state_of r')))
            (trace_of r ++ trace_of r')
      | Throw err =>
          mkRun (Throw err) (mkScene (this (state_of r) :: l) (next_id (state_of r))) (trace_of r)
      end
  end.

(** The body the three loops share: skip a source without [ev], else call
    the index method and redraw. *)
Definition wallLoopBody (method : string) (arg : nat)
  (f : Source -> gset string -> gset string) : M St unit :=
  (st <- get ;;
   match ev (this st) with
   | None => ret tt
   | Some _ =>
       optCallIndex method arg f ;;
       optCallRenderer "shadowRenderer" (update host) "update"
   end)%js.

Definition createWallHook (wallD : WallDocument) (canvas : Canvas) (n : nat)
  : Run Scene unit :=
  forSources
    (wallLoopBody "addWall" (wall_object wallD) (fun src => index_addWall host src wallD))
    (sources_of canvas) n.

(** [changes] is the set of keys of [flattenObject(data)]. *)
Definition updateWallHook (wallD : WallDocument) (changes : gset string)
  (canvas : Canvas) (n : nat) : Run Scene unit :=
  if negb (existsb (hasOwn changes) (WALL_COORDINATES host)
           || existsb (hasOwn changes) (WALL_RESTRICTED host))
  then mkRun (Ret tt) (mkScene (sources_of canvas) n) []
  else
    forSources
      (wallLoopBody "updateWall" (wall_object wallD)
         (fun src => index_updateWall host src wallD))
      (sources_of canvas) n.

Definition deleteWallHook (wallD : WallDocument) (canvas : Canvas) (n : nat)
  : Run Scene unit :=
  forSources
    (wallLoopBody "removeWall" 0%nat (fun _ => index_removeWall (wall_id wallD)))
    (sources_of canvas) n.

End Cache.

(** ** [Segment] of the visibility-polygon draft *)

Section Segments.
(** [almostEqual] (utility.js) and [orient2d] (lib/orient2d.js) are imported
    from files that are not among these. *)
Variable almostEqual : Q -> Q -> Q -> bool.
Variable orient2d : Q -> Q -> Q -> Q -> Q -> Q -> Q.
Local Open Scope Q_scope.

Record Segment : Type := mkSegment { A : Point; B : Point }.

(** The default value of the [EPSILON] parameters, [1e-5]. *)
Definition EPSILON : Q := 1 # 100000.

(** [SegmentPoint.equals] *)
Definition equals (this p : Point) (EPSILON : Q) : bool :=
  almostEqual (px this) (px p) EPSILON && almostEqual (py this) (py p) EPSILON.

Definition isEndpoint (this : Segment) (p : Point) (EPSILON : Q) : bool :=
  (almostEqual (px p) (px (A this)) EPSILON &&
   almostEqual (py p) (py (A this)) EPSILON) ||
  (almostEqual (px p) (px (A this)) EPSILON &&
   almostEqual (py p) (py (A this)) EPSILON).

(** A number is truthy when it is not zero. *)
Definition truthy (q : Q) : bool := negb (Qeq_bool q 0).

Definition Qlt_bool (a b : Q) : bool := negb (Qle_bool b a).

Definition ReferenceError : string := "ReferenceError".

(** [max] and [min] are neither declared nor imported in the file, and no
    global of these names exists: the first comparison of the last
    statement evaluates [p.x] and then fails to resolve [max]. *)
Definition contains (this : Segment) (p : Point) (EPSILON : Q) : outcome bool :=
  if truthy (orient2d (px (A this)) (py (A this)) (px p) (py p)
               (px (B this)) (py (B this)))
  then Ret false
  else if isEndpoint this p EPSILON then Ret true
  else Throw ReferenceError.

End Segments.

(** ** Measures on points and segments *)

Section SegmentMeasures.
Variable almostEqual : Q -> Q -> Q -> bool.
Local Open Scope Q_scope.

(** [SegmentPoint.squaredDistance]; [equals] is called with its default
    tolerance. *)
Definition squaredDistance (this p : Point) : Q :=
  if equals almostEqual this p EPSILON then 0
  else (px p - px this) ^ 2 + (py p - py this) ^ 2.

(** [Segment.equivalent]: 1, -1 or 0. *)
Definition equivalent (this segment : Segment) (EPSILON : Q) : Z :=
  if almostEqual (px (A this)) (px (A segment)) EPSILON &&
     almostEqual (py (A this)) (py (A segment)) EPSILON &&
     almostEqual (px (B this)) (px (B segment)) EPSILON &&
     almostEqual (py (B this)) (py (B segment)) EPSILON then 1%Z
  else if almostEqual (px (A this)) (px (B segment)) EPSILON &&
          almostEqual (py (A this)) (py (B segment)) EPSILON &&
          almostEqual (px (B this)) (px (A segment)) EPSILON &&
          almostEqual (py (B this)) (py (A segment)) EPSILON then (-1)%Z
  else 0%Z.

End SegmentMeasures.

(** [Segment.leftOf] *)
Definition leftOf (this : Segment) (p : Point) : bool :=
  let cross := ((px (B this) - px (A this)) * (py p - py (A this))
                - (py (B this) - py (A this)) * (px p - px (A this)))%Q in
  Qlt_bool cross 0.

(** The segment with the endpoints of [s] exchanged. *)
Definition reversed (s : Segment) : Segment := mkSegment (B s) (A s).

(** ** The elevation tooltip of an ambient light *)

(** The two fields of the text style the code sets; the rest is the clone of
    [CONFIG.canvasTextStyle]. *)
Record TextStyle : Type := mkTextStyle {
  fontSize : Q;
  wordWrapWidth : Q
}.

(** A [PreciseText]. *)
Record Tooltip : Type := mkTooltip {
  text : string;
  style : TextStyle;
  anchor : Point;
  position : Point
}.

(** [elevationE] is [None] when it is not a finite number; [tooltip] is
    [None] until the light was drawn. *)
Record AmbientLight : Type := mkLight {
  elevationE : option Q;
  tooltip : option Tooltip
}.

(** [canvas.dimensions.size], [canvas.scene.grid.units], and the conversion
    of a number to a string in a template literal. *)
Record LightHost : Type := mkLightHost {
  dimensions_size : Q;
  grid_units : string;
  numberToString : Q -> string
}.

(** The light a function runs on, and [canvas.primary.sortDirty]. *)
Record LightSt : Type := mkLightSt {
  light : AmbientLight;
  sortDirty : bool
}.

Section AmbientLights.
Variable h : LightHost.
Local Open Scope Q_scope.

(** [Math.round]: the nearest integer, a tie going up. *)
Definition Math_round (x : Q) : Q := inject_Z (Qfloor (x + (1 # 2))).

(** [Math.max(Math.round((canvas.dimensions.size * 0.5) / 20) * 20, 40)],
    which both the tooltip and its style compute. *)
Definition controlIconSize : Q :=
  Qmax (Math_round ((dimensions_size h * (1 # 2)) / 20) * 20) 40.

Definition _getTooltipTextAmbientLight (this : AmbientLight) : string :=
  match elevationE this with
  | None => ""
  | Some el =>
      if Qeq_bool el 0 then ""
      else
        let units := grid_units h in
        if Qlt_bool 0 el
        then "+" +:+ numberToString h el +:+ " " +:+ units
        else numberToString h el +:+ " " +:+ units
  end.

Definition _getTextStyleAmbientLight : TextStyle :=
  let fontSize :=
    if Qle_bool 200 (dimensions_size h) then 28
    else if Qlt_bool (dimensions_size h) 50 then 20
    else 24 in
  let size := controlIconSize in
  mkTextStyle fontSize (size * (5 # 2)).

Definition _drawTooltipAmbientLight (this : AmbientLight) : Tooltip :=
  let text := _getTooltipTextAmbientLight this in
  let style := _getTextStyleAmbientLight in
  let size := controlIconSize in
  mkTooltip text style (mkPoint (1 # 2) 1) (mkPoint 0 (- size / 2)).

(** [this.tooltip ||= this.addChild(this._drawTooltip())] after the wrapped
    method. *)
Definition _drawAmbientLight (wrapped : M LightSt unit) : M LightSt unit :=
  (wrapped ;;
   st <- get ;;
   match tooltip (light st) with
   | Some _ => ret tt
   | None =>
       put (mkLightSt
              (mkLight (elevationE (light st)) (Some (_drawTooltipAmbientLight (light st))))
              (sortDirty st))
   end)%js.

(** [refreshElevation] is the flag of that name in [flags]. *)
Definition refreshAmbientLightHook (refreshElevation : bool) : M LightSt unit :=
  if refreshElevation then
    (st <- get ;;
     put (mkLightSt (light st) true) ;;
     let tooltipText := _getTooltipTextAmbientLight (light st) in
     match tooltip (light st) with
     | None => throw TypeError
     | Some tip =>
         if String.eqb tooltipText (text tip) then ret tt
         else
           put (mkLightSt
                  (mkLight (elevationE (light st))
                     (Some (mkTooltip tooltipText (style tip) (anchor tip) (position tip))))
                  true)
     end)%js
  else ret tt.

End AmbientLights.

(** ** Sample data *)

Definition sampleWall : WallDocument := mkWall "W1" 900.

(** A scene of 3000 by 2000 with the wall W1, whose top is at elevation 10:
    it is relevant to the sources above it. *)
Definition sampleHost : Host :=
  mkHost 3000 2000 None true [sampleWall]
    (fun source _ => negb (Qle_bool (elevation source) 10))
    ["c"] ["light"; "sight"; "move"; "sound"].

Definition lightOfRadius (r : Q) : Source :=
  mkSource LightSource 50 50 r 20 None.

(** A stand-in for [almostEqual] of utility.js: the difference is below
    the tolerance. *)
Definition almostEqual_abs (a b e : Q) : bool :=
  negb (Qle_bool e (Qabs (a - b))).

Definition sampleSegment : Segment :=
  mkSegment (mkPoint 0 0) (mkPoint 10 0).

(** A shader patcher whose [replace] throws, and one that appends to the
    source it was given. *)
Definition throwingPatcher : ShaderPatcherAPI string :=
  {| newShaderPatcher := fun _ => Ret ""%string;
     setSource := fun _ src => Ret src;
     addUniform := fun p _ _ => Ret p;
     replace := fun _ _ _ => Throw "pattern not found";
     getSource := fun p => Ret p |}.

Definition appendingPatcher : ShaderPatcherAPI string :=
  {| newShaderPatcher := fun _ => Ret ""%string;
     setSource := fun _ src => Ret src;
     addUniform := fun p name _ => Ret (p +:+ name);
     replace := fun p _ _ => Ret p;
     getSource := fun p => Ret p |}.

(** A light of radius 200 above W1 after its shaders were initialized, and
    one that was never initialized. *)
Definition readyLight : Source :=
  Eval vm_compute in
    this (state_of (initializeSourceShadersHook sampleHost (mkSt (lightOfRadius 200) 0))).

Definition bareLight : Source := lightOfRadius 100.

(** A light below the top of W1, after its shaders were initialized. *)
Definition lowLight : Source :=
  Eval vm_compute in
    this (state_of (initializeSourceShadersHook sampleHost
                      (mkSt (mkSource LightSource 50 50 200 5 None) 20))).

(** The sample light after its teardown: the cache object is still there,
    its asset slots are unset. *)
Definition tornLight : Source :=
  Eval vm_compute in
    this (state_of (destroyRenderedPointSource sampleHost (ret tt) (mkSt readyLight 50))).

(** A vision source that was never initialized. *)
Definition newViewer : Source := mkSource VisionSource 10 20 300 0 None.

(** A scene with a grid of 100 whose units are feet; numbers are printed by
    a stand-in that knows 5 and -5. *)
Definition sampleLightHost : LightHost :=
  mkLightHost 100%Q "ft" (fun q => if Qeq_bool q 5%Q then "5" else "-5").

Definition sampleLight : AmbientLight := mkLight (Some 5%Q) None.

(** ** Relating two runs of a loop over sources *)

(** [r] is the run [r'] with the source [s] put, untouched, at position [i]
    of the array of sources. *)
Definition skips (i : nat) (s : Source) (r r' : Run Scene unit) : Prop :=
  r = mkRun (outcome_of r')
        (mkScene (take i (sources (state_of r')) ++ s :: drop i (sources (state_of r')))
           (scene_next_id (state_of r')))
        (trace_of r').

(** ** What "largest resolution within the budget" means *)

Section Budget.
Variable host : Host.
Local Open Scope Q_scope.

(** [res] is the largest factor that keeps the longer side within the
    texel budget. *)
Definition largest_within_budget (c : RendererClass) (source : Source) (res : Q) : Prop :=
  let longer := Qmax (width host c source) (height host c source) in
  longer * res <= MAX_TEXTURE_SIZE /\
  forall q : Q, longer * q <= MAX_TEXTURE_SIZE -> q <= res.

End Budget.

(** ** Reading traces *)

(** Calls that size a render texture. *)
Definition is_sizing (e : Event) : bool :=
  match e with
  | ESetResolution _ _ | EResize _ _ _ => true
  | _ => false
  end.

(** Calls on a render texture, and the rasterization into one. *)
Definition is_texture_event (e : Event) : bool :=
  match e with
  | ECreateTexture _ _ _ _ | ESetResolution _ _ | EResize _ _ _
  | EDestroyTexture _ | ERender _ _ => true
  | _ => false
  end.

Definition is_render (e : Event) : bool :=
  match e with
  | ERender _ _ => true
  | _ => false
  end.

(** Construction of a shadow mesh or of the wall geometry under it. *)
Definition builds_mesh (e : Event) : bool :=
  match e with
  | ENew class _ _ =>
      bool_decide (class = "ShadowWallPointSourceMesh") ||
      bool_decide (class = "PointSourceShadowWallGeometry")
  | _ => false
  end.

(** Every event [m] can emit, from any state, satisfies [P]. *)
Definition emits_only {S A} (P : Event -> Prop) (m : M S A) : Prop :=
  forall s, Forall P (trace_of (m s)).

(** ** Caches that are ready *)

Definition not_renderer (o : option Obj) : bool :=
  match o with
  | Some (Rendering _) => false
  | _ => true
  end.

(** The trace of [ev.k?.method(args)] when the slot holds [o]. *)
Definition callTrace (o : option Obj) (method : string) (args : list nat) : list Event :=
  match o with
  | Some o => [ECall (oid o) method args]
  | None => []
  end.

(** A cache whose shadow renderer is the renderer [r], whose vision mask is
    set, and whose geometry and mesh slots, where set, hold geometries and
    meshes. *)
Definition ready (c : gmap string Obj) (r : Renderer) : Prop :=
  c !! "shadowRenderer" = Some (Rendering r) /\
  is_Some (c !! "shadowVisionMask") /\
  not_renderer (c !! "geom") = true /\
  not_renderer (c !! "shadowMesh") = true /\
  not_renderer (c !! "shadowVisionLOSMesh") = true /\
  not_renderer (c !! "shadowQuadMesh") = true.

(** The sample light after its radius went from 200 to 50, its cache and
    its renderer. *)
Definition shrunkLight : Source :=
  mkSource LightSource 50 50 50 20 (ev readyLight).

Definition readyCache : gmap string Obj := default ∅ (ev readyLight).

Definition readyRenderer : Renderer := mkRenderer ShadowTextureRenderer 2 1 3.

(** ** Teardown *)

(** The trace of [o.destroy()]. *)
Definition releaseTrace (o : Obj) : list Event :=
  match o with
  | Rendering r => [EDestroyTexture (renderTexture r)]
  | _ => [ECall (oid o) "destroy" []]
  end.

(** The release of what the slot [k] of [c] holds, if it holds something. *)
Definition slotRelease (c : gmap string Obj) (k : string) : list Event :=
  from_option releaseTrace [] (c !! k).

(** The trace of the conditional [removeChild] that starts the teardown. *)
Definition removeChildTrace (host : Host) (c : gmap string Obj) : list Event :=
  match c !! "shadowQuadMesh", canvas_effects_EVshadows host with
  | Some q, Some container => [ERemoveChild container (oid q)]
  | _, _ => []
  end.

(** The host method behind a wrap returns and leaves [ev] alone. *)
Definition host_only (wrapped : M St unit) : Prop :=
  forall s, outcome_of (wrapped s) = Ret tt /\ ev (this (state_of (wrapped s))) = ev (this s).

(** A second [destroy()] of the renderer [r] does nothing. *)
Definition second_destroy_is_noop (r : Renderer) (st : St) : Prop :=
  trace_of (destroy r (state_of (destroy r st))) = [].

(** ** Wall changes *)

Definition lowCache : gmap string Obj := default ∅ (ev lowLight).

Definition lowRenderer : Renderer := mkRenderer ShadowTextureRenderer 22 21 23.

(** The rasterization a redraw of the cache of [s] records. *)
Definition rendersOf (s : Source) : list Event :=
  match ev s with
  | Some c =>
      match c !! "shadowRenderer" with
      | Some (Rendering r) => [ERender (mesh r) (renderTexture r)]
      | _ => []
      end
  | None => []
  end.

(** The wall geometry slot of [s], where set, holds a geometry. *)
Definition loop_safe (s : Source) : bool :=
  match ev s with
  | Some c => not_renderer (c !! "wallGeometry")
  | None => true
  end.

(** [s'] is [s] after a wall change was routed to it: a source without a
    cache is untouched; in a cache only the wall geometry slot can differ,
    and its index is the one [f] computes. *)
Definition routed (f : Source -> gset string -> gset string) (s s' : Source) : Prop :=
  match ev s with
  | None => s' = s
  | Some c =>
      exists c', s' = with_ev s (Some c') /\
        (forall k, k <> "wallGeometry" -> c' !! k = c !! k) /\
        index_of c' =
          match c !! "wallGeometry" with
          | Some (WallGeometry _ walls) => f s walls
          | _ => ∅
          end
  end.

(** The deletion of [wallD] leaves every cache alone whose index does not
    contain the wall: its render target is not rasterized again. *)
Definition unaffected_cache_idle (host : Host) (wallD : WallDocument) (canvas : Canvas)
  (n : nat) : Prop :=
  forall (s : Source) (c : gmap string Obj) (r : Renderer),
    s ∈ sources_of canvas ->
    ev s = Some c ->
    wall_id wallD ∉ index_of c ->
    c !! "shadowRenderer" = Some (Rendering r) ->
    ERender (mesh r) (renderTexture r) ∉ trace_of (deleteWallHook host wallD canvas n).

(** ** What initialization builds *)

(** The textures a trace creates, and the textures it destroys, in order. *)
Definition created_textures (tr : list Event) : list nat :=
  omap (fun e => match e with ECreateTexture rt _ _ _ => Some rt | _ => None end) tr.

Definition destroyed_textures (tr : list Event) : list nat :=
  omap (fun e => match e with EDestroyTexture rt => Some rt | _ => None end) tr.

(** The identities an object of the cache holds: its own and, for a
    renderer, those of its mesh and of its render texture. *)
Definition ids_of (o : Obj) : list nat :=
  match o with
  | Rendering r => [r_id r; mesh r; renderTexture r]
  | _ => [oid o]
  end.

(** Every identity in the cache [c] was handed out before the counter
    reached [n]. *)
Definition ids_below (n : nat) (c : gmap string Obj) : bool :=
  forallb (fun kv => forallb (fun i => Nat.ltb i n) (ids_of (snd kv))) (map_to_list c).

(** The host method behind a wrap hands out identities from the counter
    only: it never lowers it. *)
Definition counter_kept (wrapped : M St unit) : Prop :=
  forall s, (next_id s <= next_id (state_of (wrapped s)))%nat.

(** The host method behind a wrap returns and leaves the source alone. *)
Definition source_untouched (wrapped : M St unit) : Prop :=
  forall s, outcome_of (wrapped s) = Ret tt /\ this (state_of (wrapped s)) = this s.

(** The cache of [src], or the empty object the hook starts from. *)
Definition cache_of (src : Source) : gmap string Obj := default ∅ (ev src).

(** The slots the hook fills for every source, on top of [c], with object
    identities from [n] on. *)
Definition builtStandard (host : Host) (src : Source) (c : gmap string Obj) (n : nat)
  : gmap string Obj :=
  <["shadowVisionMask" := External (5 + n)]>
    (<["shadowRenderer" := Rendering (mkRenderer ShadowTextureRenderer (2 + n) (1 + n) (3 + n))]>
       (<["shadowMesh" := External (1 + n)]>
          (<["wallGeometry" := WallGeometry n (index_create host src)]> c))).

(** The cache the hook leaves when no asset slot of [src] was set. *)
Definition builtCache (host : Host) (src : Source) (n : nat) : gmap string Obj :=
  let standard := builtStandard host src (cache_of src) n in
  if instanceof_VisionSource (constructor src) then
    <["shadowQuadMesh" := External (14 + n)]>
      (<["shadowVisionLOSMask" := External (12 + n)]>
         (<["losGeometry" := External (10 + n)]>
            (<["shadowVisionLOSRenderer" :=
                 Rendering (mkRenderer ShadowVisionLOSTextureRenderer (7 + n) (6 + n) (8 + n))]>
               (<["shadowVisionLOSMesh" := External (6 + n)]> standard))))
  else <["shadowQuadMesh" := External (7 + n)]> standard.

Definition builtNext (src : Source) (n : nat) : nat :=
  if instanceof_VisionSource (constructor src) then 15 + n else 8 + n.

(** The position a renderer of class [c] gives its mesh. *)
Definition meshPosition (host : Host) (c : RendererClass) (src : Source) : Point :=
  mkPoint (- px (topLeft host c src)) (- py (topLeft host c src)).

(** The trace of that run. *)
Definition builtTrace (host : Host) (src : Source) (n : nat) : list Event :=
  [ENew "PointSourceShadowWallGeometry" n [];
   ENew "ShadowWallPointSourceMesh" (1 + n) [n];
   ESetUniform "background" "EVshadows" (UBool (shading_is_webgl host));
   ESetUniform "coloration" "EVshadows" (UBool (shading_is_webgl host));
   ESetUniform "illumination" "EVshadows" (UBool (shading_is_webgl host));
   ECreateTexture (3 + n) (width host ShadowTextureRenderer src)
     (height host ShadowTextureRenderer src) (resolution host ShadowTextureRenderer src);
   ESetPosition (1 + n) (meshPosition host ShadowTextureRenderer src);
   ERender (1 + n) (3 + n);
   ENew "ShadowVisionMaskShader" (4 + n) [3 + n];
   ENew "PIXI.Mesh" (5 + n) [4 + n];
   ESetPosition (5 + n) (mkPoint (source_x src) (source_y src));
   ESetScale (5 + n) (mkPoint (radius src) (radius src))] ++
  (if instanceof_VisionSource (constructor src) then
     [ENew "ShadowWallPointSourceMesh" (6 + n)
        (optArg (cache_of src !! "visionLOSShadowGeometry"));
      ECreateTexture (8 + n) (width host ShadowVisionLOSTextureRenderer src)
        (height host ShadowVisionLOSTextureRenderer src)
        (resolution host ShadowVisionLOSTextureRenderer src);
      ESetPosition (6 + n) (meshPosition host ShadowVisionLOSTextureRenderer src);
      ERender (6 + n) (8 + n);
      ENew "PolygonMesher" (9 + n) [];
      ECall (9 + n) "triangulate" [];
      ENew "ShadowVisionMaskTokenLOSShader" (11 + n) [8 + n];
      ENew "PIXI.Mesh" (12 + n) [10 + n; 11 + n];
      ENew "TestShadowShader" (13 + n) [3 + n];
      ENew "EVQuadMesh" (14 + n) [13 + n]]
   else
     [ENew "TestShadowShader" (6 + n) [3 + n];
      ENew "EVQuadMesh" (7 + n) [6 + n]]) ++
  [ESetUniform "illumination" "uEVShadowSampler" (UBaseTexture (3 + n));
   ESetUniform "coloration" "uEVShadowSampler" (UBaseTexture (3 + n));
   ESetUniform "background" "uEVShadowSampler" (UBaseTexture (3 + n))].

(** The line-of-sight slots, which the hook fills for a vision source only. *)
Definition losSlots : list string :=
  [ "shadowVisionLOSMesh"; "shadowVisionLOSRenderer"; "losGeometry"; "shadowVisionLOSMask" ].

(** A cache in which every slot is set that the hook would otherwise fill,
    with the renderer [r] as its shadow renderer. *)
Definition complete (vision : bool) (c : gmap string Obj) (r : Renderer) : Prop :=
  is_Some (c !! "wallGeometry") /\
  is_Some (c !! "shadowMesh") /\
  c !! "shadowRenderer" = Some (Rendering r) /\
  is_Some (c !! "shadowVisionMask") /\
  is_Some (c !! "shadowQuadMesh") /\
  (vision = true -> is_Some (c !! "shadowVisionLOSMesh")).

(** ** More readings of traces *)

(** Events that create or release something, or reconfigure a shader:
    textures created or destroyed, children removed, uniforms set, and
    objects constructed other than the mesher of a line-of-sight polygon. *)
Definition allocates (e : Event) : bool :=
  match e with
  | ECreateTexture _ _ _ _ | EDestroyTexture _ | ERemoveChild _ _ | ESetUniform _ _ _ => true
  | ENew class _ _ => negb (bool_decide (class = "PolygonMesher"))
  | _ => false
  end.

(** [new PolygonMesher(...)] *)
Definition is_mesher (e : Event) : bool :=
  match e with
  | ENew class _ _ => bool_decide (class = "PolygonMesher")
  | _ => false
  end.

(** How a slot may differ after the configure wrap: not at all, or it is
    [losGeometry] and was unset. *)
Definition los_step (k : string) (o o' : option Obj) : Prop :=
  o' = o \/ (k = "losGeometry" /\ o = None).

(** How a slot may differ after a wall hook: not at all, or it is
    [wallGeometry] and holds an object of the same identity. *)
Definition wall_step (k : string) (o o' : option Obj) : Prop :=
  o' = o \/ (k = "wallGeometry" /\ oid <$> o' = oid <$> o).

(** The source [s'] has the fields of [s], a cache exactly if [s] has one,
    and each slot of it differs from the slot of [s] as [step] allows. *)
Definition cache_step (step : string -> option Obj -> option Obj -> Prop)
  (s s' : Source) : Prop :=
  with_ev s' None = with_ev s None /\
  match ev s, ev s' with
  | None, None => True
  | Some c, Some c' => forall k, step k (c !! k) (c' !! k)
  | _, _ => False
  end.

(** From every state [m] changes the source as [step] allows, and hands
    out at most two identities for each mesher it constructs: that of the
    mesher and that of the geometry [triangulate] returns. *)
Definition accounted {A} (step : string -> option Obj -> option Obj -> Prop)
  (m : M St A) : Prop :=
  forall st,
    cache_step step (this st) (this (state_of (m st))) /\
    (next_id st <= next_id (state_of (m st))
     <= next_id st + 2 * length (List.filter is_mesher (trace_of (m st))))%nat.

(** From every state [m] constructs at most one mesher. *)
Definition one_mesher {A} (m : M St A) : Prop :=
  forall st, (length (List.filter is_mesher (trace_of (m st))) <= 1)%nat.

(** What a wall hook leaves: no allocation and no mesher in the trace, each
    source changed as [wall_step] allows, and the counter where it was. *)
Definition hook_allocates_nothing (l : list Source) (n : nat) (r : Run Scene unit) : Prop :=
  List.filter allocates (trace_of r) = [] /\
  List.filter is_mesher (trace_of r) = [] /\
  Forall2 (cache_step wall_step) l (sources (state_of r)) /\
  scene_next_id (state_of r) = n.

Definition is_scale (e : Event) : bool :=
  match e with
  | ESetScale _ _ => true
  | _ => false
  end.

(** The rasterization a redraw of the renderer in slot [k] records. *)
Definition slotRenders (c : gmap string Obj) (k : string) : list Event :=
  match c !! k with
  | Some (Rendering r) => [ERender (mesh r) (renderTexture r)]
  | _ => []
  end.

(** The state has a cache whose vision mask is unset. *)
Definition mask_unset (s : St) : Prop :=
  exists c, ev (this s) = Some c /\ c !! "shadowVisionMask" = None.

(** From a state without a vision mask [m] returns or throws a [TypeError],
    and leaves a state without a vision mask. *)
Definition keeps_mask_unset {A} (m : M St A) : Prop :=
  forall s, mask_unset s ->
    (outcome_of (m s) = Throw TypeError \/ exists a, outcome_of (m s) = Ret a) /\
    mask_unset (state_of (m s)).

(** From a state without a vision mask [m] throws a [TypeError]. *)
Definition fails_without_mask {A} (m : M St A) : Prop :=
  forall s, mask_unset s -> outcome_of (m s) = Throw TypeError.

(** The trace of [ev.k?.update()] when the slot holds [o], for the source
    [src]. *)
Definition updateTrace (host : Host) (src : Source) (o : option Obj) : list Event :=
  match o with
  | Some (Rendering r) =>
      [ESetPosition (mesh r) (meshPosition host (r_class r) src);
       ERender (mesh r) (renderTexture r)]
  | Some o => [ECall (oid o) "update" []]
  | None => []
  end.

(** Calls on objects of other files and constructions of the mesher: what
    the refresh at the start of the configure wrap consists of. *)
Definition is_refresh (e : Event) : bool :=
  match e with
  | ECall _ _ _ => true
  | ENew class _ _ => bool_decide (class = "PolygonMesher")
  | _ => false
  end.

(** * Properties *)

(** ** Texture sizing *)

Section Sizing.
Variable host : Host.
Local Open Scope Q_scope.

Lemma resolution_longer_side (c : RendererClass) (source : Source) :
  resolution host c source ==
  Qmin MAX_TEXTURE_SIZE (Qmax (width host c source) (height host c source))
  / Qmax (width host c source) (height host c source).
Proof.
  unfold resolution.
  set (w := width host c source). set (h := height host c source).
  destruct (Qle_bool h w) eqn:E.
  - apply Qle_bool_iff in E.
    rewrite Qmult_1_l. rewrite (Q.max_l w h E). reflexivity.
  - assert (w <= h) as Hwh.
    { destruct (Qlt_le_dec w h) as [Hlt|Hge]; [now apply Qlt_le_weak|].
      apply Qle_bool_iff in Hge. congruence. }
    rewrite Qmult_1_l. rewrite (Q.max_r w h Hwh). reflexivity.
Qed.

Lemma longer_side_standard (source : Source) :
  Qmax (width host ShadowTextureRenderer source) (height host ShadowTextureRenderer source)
  == radius source * 2.
Proof. simpl. apply Q.max_id. Qed.


End Sizing.

Local Open Scope Q_scope.



Local Close Scope Q_scope.

(** C5: a shadow render target is as wide and as high as twice the radius
    of its source, and is created with these sides; the line-of-sight
    variant has the sides of the canvas and its anchor is the origin. *)
Theorem render_target_sides (host : Host) (mesh : nat) (st : St) :
  width host ShadowTextureRenderer (this st) = (radius (this st) * 2)%Q /\
  height host ShadowTextureRenderer (this st) = (radius (this st) * 2)%Q /\
  trace_of (newRenderer host ShadowTextureRenderer mesh st) =
    [ECreateTexture (S (next_id st)) (radius (this st) * 2) (radius (this st) * 2)
       (resolution host ShadowTextureRenderer (this st))] /\
  width host ShadowVisionLOSTextureRenderer (this st) = canvas_dimensions_width host /\
  height host ShadowVisionLOSTextureRenderer (this st) = canvas_dimensions_height host /\
  trace_of (newRenderer host ShadowVisionLOSTextureRenderer mesh st) =
    [ECreateTexture (S (next_id st)) (canvas_dimensions_width host)
       (canvas_dimensions_height host)
       (resolution host ShadowVisionLOSTextureRenderer (this st))] /\
  topLeft host ShadowVisionLOSTextureRenderer (this st) = mkPoint 0 0.
Proof. repeat split. Qed.

(** ** The fragment patch *)

Section Patch.
Context {P : Type} {api : ShaderPatcherAPI P}.

(** The chain throws as soon as one of its six steps does. *)
Lemma patchChain_step_throws (source err : string) :
  newShaderPatcher "frag" = Throw err \/
  (exists p, newShaderPatcher "frag" = Ret p /\
     (setSource p source = Throw err \/
      exists p1, setSource p source = Ret p1 /\
        (addUniform p1 "uEVShadowSampler" "sampler2D" = Throw err \/
         exists p2, addUniform p1 "uEVShadowSampler" "sampler2D" = Ret p2 /\
           (addUniform p2 "uEVShadows" "bool" = Throw err \/
            exists p3, addUniform p2 "uEVShadows" "bool" = Ret p3 /\
              (replace p3 shadowFragmentPattern shadowFragmentReplacement = Throw err \/
               exists p4, replace p3 shadowFragmentPattern shadowFragmentReplacement = Ret p4 /\
                 getSource p4 = Throw err))))) ->
  patchChain source = Throw err.
Proof.
  unfold patchChain.
  intros [E | (p & E & [E1 | (p1 & E1 & [E2 | (p2 & E2 & [E3 | (p3 & E3 & [E4 | (p4 & E4 & E5)])])])])];
    rewrite E; simpl; try easy;
    rewrite E1; simpl; try easy;
    rewrite E2; simpl; try easy;
    rewrite E3; simpl; try easy;
    rewrite E4; simpl; try easy.
Qed.

(** C10: [addShadowFragmentCode] returns a string on every input and never
    throws; when the patch chain throws, the string is the source it was
    given, unchanged, and otherwise it is the patched source. *)
Theorem addShadowFragmentCode_suppresses (source : string) :
  addShadowFragmentCode source =
  Ret (Some (match patchChain source with
             | Ret patched => patched
             | Throw _ => source
             end)).
Proof.
  unfold addShadowFragmentCode, try_finally, tryBlock, finallyBlock.
  destruct (patchChain source); reflexivity.
Qed.

End Patch.

Example addShadowFragmentCode_throwing :
  @addShadowFragmentCode _ throwingPatcher "void main() {}" = Ret (Some "void main() {}"%string).
Proof. reflexivity. Qed.

Example addShadowFragmentCode_patching :
  @addShadowFragmentCode _ appendingPatcher "x" = Ret (Some "xuEVShadowSampleruEVShadows"%string).
Proof. reflexivity. Qed.

(** ** Segment endpoints *)

Section SegmentFacts.
Variable almostEqual : Q -> Q -> Q -> bool.

Lemma isEndpoint_tests_A_twice (s : Segment) (p : Point) (eps : Q) :
  isEndpoint almostEqual s p eps =
  equals almostEqual p (A s) eps || equals almostEqual p (A s) eps.
Proof. reflexivity. Qed.

Lemma isEndpoint_ignores_B (a b b' p : Point) (eps : Q) :
  isEndpoint almostEqual (mkSegment a b) p eps =
  isEndpoint almostEqual (mkSegment a b') p eps.
Proof. reflexivity. Qed.

(** C8: both disjuncts of [isEndpoint] compare the point with endpoint A, so
    a point that is within epsilon of endpoint B but not of endpoint A is
    not recognised as an endpoint. *)
Theorem isEndpoint_misses_B (s : Segment) (p : Point) (eps : Q) :
  equals almostEqual p (B s) eps = true ->
  equals almostEqual p (A s) eps = false ->
  isEndpoint almostEqual s p eps = false.
Proof.
  intros _ HA. rewrite isEndpoint_tests_A_twice, HA. reflexivity.
Qed.

End SegmentFacts.

Lemma isEndpoint_misses_B_witness :
  equals almostEqual_abs (mkPoint 10 0) (B sampleSegment) EPSILON = true /\
  equals almostEqual_abs (mkPoint 10 0) (A sampleSegment) EPSILON = false /\
  isEndpoint almostEqual_abs sampleSegment (mkPoint 10 0) EPSILON = false.
Proof.
  split; [reflexivity|]. split; [reflexivity|].
  apply (isEndpoint_misses_B almostEqual_abs sampleSegment (mkPoint 10 0) EPSILON);
    reflexivity.
Defined.

(** ** Running function bodies *)

Lemma run_eta {S A} (r : Run S A) :
  r = mkRun (outcome_of r) (state_of r) (trace_of r).
Proof. now destruct r. Qed.

Lemma bind_returns {S A B} (m : M S A) (k : A -> M S B) (s s' : S) (a : A) (tr : list Event) :
  m s = mkRun (Ret a) s' tr ->
  bind m k s = mkRun (outcome_of (k a s')) (state_of (k a s')) (tr ++ trace_of (k a s')).
Proof. intros E. unfold bind. now rewrite E. Qed.

Lemma bind_throws {S A B} (m : M S A) (k : A -> M S B) (s s' : S) (err : string) (tr : list Event) :
  m s = mkRun (Throw err) s' tr ->
  bind m k s = mkRun (Throw err) s' tr.
Proof. intros E. unfold bind. now rewrite E. Qed.

Lemma bind_unit_noop {S B} (m : M S unit) (k : unit -> M S B) (s : S) :
  m s = mkRun (Ret tt) s [] ->
  bind m k s = k tt s.
Proof.
  intros E. rewrite (bind_returns _ _ _ _ _ _ E). simpl. symmetry. apply run_eta.
Qed.

Lemma bind_get {S B} (k : S -> M S B) (s : S) :
  bind get k s = k s s.
Proof. unfold bind, get. simpl. symmetry. apply run_eta. Qed.

Lemma bind_ret {S A B} (a : A) (k : A -> M S B) (s : S) :
  bind (ret a) k s = k a s.
Proof. unfold bind, ret. simpl. symmetry. apply run_eta. Qed.

Lemma bind_throw {S A B} (err : string) (k : A -> M S B) (s : S) :
  bind (throw err) k s = mkRun (Throw err) s [].
Proof. reflexivity. Qed.

Lemma bind_emit {S B} (e : Event) (k : unit -> M S B) (s : S) :
  bind (emit e) k s = mkRun (outcome_of (k tt s)) (state_of (k tt s)) (e :: trace_of (k tt s)).
Proof. reflexivity. Qed.

Lemma bind_assoc {S A B C} (m : M S A) (k : A -> M S B) (h : B -> M S C) (s : S) :
  bind (bind m k) h s = bind m (fun a => bind (k a) h) s.
Proof.
  unfold bind. destruct (m s) as [[a|err] s1 tr1]; simpl; [|reflexivity].
  destruct (k a s1) as [[b|err] s2 tr2]; simpl; [|reflexivity].
  now rewrite app_assoc.
Qed.

(** ** Global light sources; sources without a cache *)

Section NoCache.
Variable host : Host.

(** C6: the shader-initialization hook returns at once on a global light
    source: it creates no geometry, mesh, render target or cache entry
    (the trace is empty) and leaves the source as it was. *)
Theorem global_light_never_cached (st : St) :
  constructor (this st) = GlobalLightSource ->
  initializeSourceShadersHook host st = mkRun (Ret tt) st [].
Proof.
  intros H. unfold initializeSourceShadersHook.
  rewrite bind_get, H. reflexivity.
Qed.

Lemma configureShadows_no_cache (changes : gset string) (st : St) :
  ev (this st) = None ->
  configureShadows host changes st = mkRun (Ret tt) st [].
Proof.
  intros H. unfold configureShadows. rewrite bind_get, H. reflexivity.
Qed.

Lemma wallLoopBody_no_cache (method : string) (arg : nat)
  (f : Source -> gset string -> gset string) (s : Source) (n : nat) :
  ev s = None ->
  wallLoopBody host method arg f (mkSt s n) = mkRun (Ret tt) (mkSt s n) [].
Proof.
  intros H. unfold wallLoopBody. rewrite bind_get. simpl. rewrite H. reflexivity.
Qed.

Lemma forSources_skip (body : M St unit) (s : Source) (l1 l2 : list Source) (n : nat) :
  (forall m, body (mkSt s m) = mkRun (Ret tt) (mkSt s m) []) ->
  skips (length l1) s (forSources body (l1 ++ s :: l2) n) (forSources body (l1 ++ l2) n).
Proof.
  intros Hs. unfold skips. revert n.
  induction l1 as [|a l1 IH]; intros n; simpl.
  - rewrite Hs. simpl. now rewrite drop_0.
  - destruct (body (mkSt a n)) as [[[]|err] st' tr]; simpl.
    + rewrite IH. reflexivity.
    + now rewrite take_app_length, drop_app_length.
Qed.

(** C7: a notification for a source without a cache entry is a no-op for
    that source.  The configure wrap adds nothing to what the wrapped method
    of the host did, and each wall hook runs as if the source were not in
    the array: same outcome, same trace, the other sources updated alike,
    and the source itself untouched at its position. *)
Theorem missing_cache_is_noop (wrapped : gset string -> M St unit)
  (changes : gset string) (st : St) (wallD : WallDocument) (wallChanges : gset string)
  (canvas canvas' : Canvas) (l1 l2 : list Source) (s : Source) (n : nat) :
  ev s = None ->
  ev (this (state_of (wrapped changes st))) = None ->
  sources_of canvas = l1 ++ s :: l2 ->
  sources_of canvas' = l1 ++ l2 ->
  _configureRenderedPointSource host wrapped changes st = wrapped changes st /\
  skips (length l1) s (createWallHook host wallD canvas n) (createWallHook host wallD canvas' n) /\
  skips (length l1) s (updateWallHook host wallD wallChanges canvas n)
    (updateWallHook host wallD wallChanges canvas' n) /\
  skips (length l1) s (deleteWallHook host wallD canvas n) (deleteWallHook host wallD canvas' n).
Proof.
  intros Hs Hw Hc Hc'. split; [|split; [|split]].
  - unfold _configureRenderedPointSource, bind.
    destruct (wrapped changes st) as [[[]|err] st1 tr1];
      cbn [outcome_of state_of trace_of] in *; [|reflexivity].
    rewrite (configureShadows_no_cache _ _ Hw). simpl. now rewrite app_nil_r.
  - unfold createWallHook. rewrite Hc, Hc'. apply forSources_skip.
    intros m. now apply wallLoopBody_no_cache.
  - unfold updateWallHook. rewrite Hc, Hc'.
    destruct (negb _).
    + unfold skips. simpl. now rewrite take_app_length, drop_app_length.
    + apply forSources_skip. intros m. now apply wallLoopBody_no_cache.
  - unfold deleteWallHook. rewrite Hc, Hc'. apply forSources_skip.
    intros m. now apply wallLoopBody_no_cache.
Qed.

End NoCache.

Lemma global_light_never_cached_witness :
  initializeSourceShadersHook sampleHost (mkSt (mkSource GlobalLightSource 0 0 0 0 None) 7)
  = mkRun (Ret tt) (mkSt (mkSource GlobalLightSource 0 0 0 0 None) 7) [].
Proof.
  apply (global_light_never_cached sampleHost (mkSt (mkSource GlobalLightSource 0 0 0 0 None) 7)).
  reflexivity.
Defined.

Lemma missing_cache_is_noop_witness :
  skips 1 bareLight
    (deleteWallHook sampleHost sampleWall (mkCanvas [readyLight; bareLight] [] []) 100)
    (deleteWallHook sampleHost sampleWall (mkCanvas [readyLight] [] []) 100).
Proof.
  apply (missing_cache_is_noop sampleHost (fun _ => ret tt) ∅ (mkSt bareLight 0)
           sampleWall ∅ (mkCanvas [readyLight; bareLight] [] [])
           (mkCanvas [readyLight] [] []) [readyLight] [] bareLight 100);
    reflexivity.
Defined.

(** ** What a body can emit *)

Section Emits.
Context {S : Type} (P : Event -> Prop).

Lemma emits_only_ret {A} (a : A) : emits_only P (ret (S:=S) a).
Proof. intros s. constructor. Qed.

Lemma emits_only_throw {A} (err : string) : emits_only P (throw (S:=S) (A:=A) err).
Proof. intros s. constructor. Qed.

Lemma emits_only_get : emits_only P (get (S:=S)).
Proof. intros s. constructor. Qed.

Lemma emits_only_emit (e : Event) : P e -> emits_only P (emit (S:=S) e).
Proof. intros H s. now repeat constructor. Qed.

Lemma emits_only_bind {A B} (m : M S A) (k : A -> M S B) :
  emits_only P m -> (forall a, emits_only P (k a)) -> emits_only P (bind m k).
Proof.
  intros Hm Hk s. unfold bind. specialize (Hm s).
  destruct (m s) as [[a|err] s1 tr1]; simpl in *; [|exact Hm].
  apply Forall_app. split; [exact Hm|apply Hk].
Qed.

Lemma emits_only_when (c : bool) (m : M S unit) :
  emits_only P m -> emits_only P (when c m).
Proof. intros H. destruct c; [exact H|apply emits_only_ret]. Qed.

End Emits.

Section EmitsCache.
Variable P : Event -> Prop.

Lemma emits_only_slot (k : string) : emits_only P (slot k).
Proof. intros s. unfold slot. destruct (ev (this s)); constructor. Qed.

Lemma emits_only_set_slot (k : string) (o : Obj) : emits_only P (set_slot k o).
Proof. intros s. unfold set_slot. destruct (ev (this s)); constructor. Qed.

Lemma emits_only_unset_slot (k : string) : emits_only P (unset_slot k).
Proof. intros s. unfold unset_slot. destruct (ev (this s)); constructor. Qed.

Lemma emits_only_fresh : emits_only P fresh.
Proof. intros s. constructor. Qed.

End EmitsCache.

Create HintDb emits.

#[local] Hint Resolve emits_only_ret emits_only_throw emits_only_get
  emits_only_slot emits_only_set_slot emits_only_unset_slot emits_only_fresh : emits.

(** Splits a body along its binds and branches; leaves the emitted events. *)
Ltac emits_step :=
  first
    [ apply emits_only_bind; [|intros ?]
    | apply emits_only_when
    | apply emits_only_emit
    | solve [auto with emits]
    | match goal with
      | |- emits_only _ (match ?x with _ => _ end) => destruct x
      | |- emits_only _ (if ?x then _ else _) => destruct x
      end ].

Ltac emits := repeat emits_step.

Section PositionPath.
Variable host : Host.

Let quiet (e : Event) : Prop := is_sizing e = false.

Lemma optCall_quiet (k method : string) (args : list nat) :
  emits_only quiet (optCall k method args).
Proof. unfold optCall, callMethod. emits; reflexivity. Qed.

Lemma updateLOSGeometryVisionSource_quiet :
  emits_only quiet updateLOSGeometryVisionSource.
Proof. unfold updateLOSGeometryVisionSource. emits; reflexivity. Qed.

Lemma update_quiet (k : string) :
  emits_only quiet (optCallRenderer k (update host) "update").
Proof.
  unfold optCallRenderer, callRenderer, update, renderShadowMeshToTexture.
  emits; reflexivity.
Qed.

Lemma updateQuadMeshGeometry_quiet : emits_only quiet updateQuadMeshGeometry.
Proof. unfold updateQuadMeshGeometry, callMethod. emits; reflexivity. Qed.

Lemma maskCopyPosition_quiet (p : Point) : emits_only quiet (maskCopyPosition p).
Proof. unfold maskCopyPosition. emits; reflexivity. Qed.

Lemma hasOwn_x : hasOwn {["x"]} "x" = true.
Proof. reflexivity. Qed.

(** With a changed position the wrap runs the position path, whatever else
    changed. *)
Lemma configureShadows_position (changes : gset string) (st : St) :
  hasOwn changes "x" || hasOwn changes "y" = true ->
  configureShadows host changes st = configureShadows host {["x"]} st.
Proof.
  intros H. unfold configureShadows. rewrite !bind_get.
  destruct (ev (this st)); [|reflexivity].
  rewrite H, hasOwn_x. reflexivity.
Qed.

Lemma configureShadows_position_quiet :
  emits_only quiet (configureShadows host {["x"]}).
Proof.
  intros st. unfold configureShadows. rewrite bind_get.
  destruct (ev (this st)); [|constructor].
  rewrite hasOwn_x. cbn [orb].
  refine (emits_only_bind quiet _ _ _ _ st); [|intros _];
    repeat first
      [ apply optCall_quiet | apply updateLOSGeometryVisionSource_quiet
      | apply update_quiet | apply updateQuadMeshGeometry_quiet
      | apply maskCopyPosition_quiet | apply emits_only_when
      | apply emits_only_bind; [|intros ?] ].
Qed.

(** C9: when the position changed, the wrap runs the position path only,
    also when the radius changed in the same notification: after the
    wrapped method it does what it does for a change of position alone, and
    it neither sets the resolution of a render texture nor resizes one. *)
Theorem position_change_never_resizes (wrapped : gset string -> M St unit)
  (changes : gset string) (st : St) :
  hasOwn changes "x" || hasOwn changes "y" = true ->
  _configureRenderedPointSource host wrapped changes st =
    bind (wrapped changes) (fun _ => configureShadows host {["x"]}) st /\
  exists tr,
    trace_of (_configureRenderedPointSource host wrapped changes st) =
      trace_of (wrapped changes st) ++ tr /\
    List.filter is_sizing tr = [].
Proof.
  intros H.
  assert (_configureRenderedPointSource host wrapped changes st =
          bind (wrapped changes) (fun _ => configureShadows host {["x"]}) st) as E.
  { unfold _configureRenderedPointSource, bind.
    destruct (outcome_of (wrapped changes st)); [|reflexivity].
    now rewrite (configureShadows_position _ _ H). }
  split; [exact E|]. rewrite E. unfold bind.
  destruct (wrapped changes st) as [[[]|err] st1 tr1]; cbn [outcome_of state_of trace_of].
  - exists (trace_of (configureShadows host {["x"]} st1)). split; [reflexivity|].
    pose proof (configureShadows_position_quiet st1) as Hq.
    induction Hq as [|e l He _ IH]; [reflexivity|].
    simpl. unfold quiet in He. now rewrite He.
  - exists []. split; [now rewrite app_nil_r|reflexivity].
Qed.

End PositionPath.

Lemma position_change_never_resizes_witness :
  hasOwn ({["x"]} ∪ {["radius"]}) "x" || hasOwn ({["x"]} ∪ {["radius"]}) "y" = true /\
  _configureRenderedPointSource sampleHost (fun _ => ret tt) ({["x"]} ∪ {["radius"]})
    (mkSt readyLight 50) =
  bind (ret tt) (fun _ => configureShadows sampleHost {["x"]}) (mkSt readyLight 50).
Proof.
  split; [reflexivity|].
  apply (position_change_never_resizes sampleHost (fun _ => ret tt)
           ({["x"]} ∪ {["radius"]}) (mkSt readyLight 50)).
  reflexivity.
Defined.

(** ** A change of radius *)

Section RadiusPath.
Variable host : Host.

Lemma filter_callTrace (keep : Event -> bool) (o : option Obj) (method : string)
  (args : list nat) :
  (forall id, keep (ECall id method args) = false) ->
  List.filter keep (callTrace o method args) = [].
Proof. intros H. destruct o; simpl; [now rewrite H|reflexivity]. Qed.

Lemma optCall_run (src : Source) (c : gmap string Obj) (n : nat) (k method : string)
  (args : list nat) :
  ev src = Some c ->
  not_renderer (c !! k) = true ->
  optCall k method args (mkSt src n) = mkRun (Ret tt) (mkSt src n) (callTrace (c !! k) method args).
Proof.
  intros Hev Hk. unfold optCall, bind, slot. cbn [this]. rewrite Hev.
  cbn [outcome_of state_of trace_of].
  destruct (c !! k) as [[]|]; try discriminate; reflexivity.
Qed.

Lemma with_ev_same (src : Source) (c : gmap string Obj) :
  ev src = Some c -> with_ev src (Some c) = src.
Proof. destruct src; simpl; now intros ->. Qed.

Lemma updateLOSGeometryVisionSource_run (src : Source) (c : gmap string Obj) (n : nat) :
  ev src = Some c ->
  exists g n' tr,
    updateLOSGeometryVisionSource (mkSt src n) =
      mkRun (Ret tt) (mkSt (with_ev src (Some (<["losGeometry":=g]> c))) n') tr /\
    List.filter is_texture_event tr = [] /\
    List.filter builds_mesh tr = [].
Proof.
  intros Hev. unfold updateLOSGeometryVisionSource.
  destruct (c !! "losGeometry") as [o|] eqn:E.
  - exists o, (S n), [ENew "PolygonMesher" n []; ECall n "triangulate" [oid o]].
    split; [|split; reflexivity].
    unfold bind, fresh, emit, slot, set_slot. cbn [this next_id outcome_of state_of trace_of].
    rewrite Hev. cbn [outcome_of state_of trace_of]. rewrite E.
    cbn [this next_id outcome_of state_of trace_of]. rewrite Hev. reflexivity.
  - exists (External (S n)), (S (S n)), [ENew "PolygonMesher" n []; ECall n "triangulate" []].
    split; [|split; reflexivity].
    unfold bind, fresh, emit, slot, set_slot. cbn [this next_id outcome_of state_of trace_of].
    rewrite Hev. cbn [outcome_of state_of trace_of]. rewrite E.
    cbn [this next_id outcome_of state_of trace_of]. rewrite Hev. reflexivity.
Qed.

(** The calls that refresh the geometry and the light position, which every
    change of position, elevation or radius starts with. *)
Lemma refresh_run (src : Source) (c : gmap string Obj) (n : nat) (vision : bool) :
  ev src = Some c ->
  not_renderer (c !! "geom") = true ->
  not_renderer (c !! "shadowMesh") = true ->
  not_renderer (c !! "shadowVisionLOSMesh") = true ->
  exists c' n' tr,
    (optCall "geom" "refreshWalls" [] ;;
     optCall "shadowMesh" "updateLightPosition" [] ;;
     optCall "shadowVisionLOSMesh" "updateLightPosition" [] ;;
     when vision updateLOSGeometryVisionSource)%js (mkSt src n) =
      mkRun (Ret tt) (mkSt (with_ev src (Some c')) n') tr /\
    (forall k, k <> "losGeometry" -> c' !! k = c !! k) /\
    List.filter is_texture_event tr = [] /\
    List.filter builds_mesh tr = [].
Proof.
  intros Hev Hg Hm Hl.
  destruct vision.
  - destruct (updateLOSGeometryVisionSource_run src c n Hev) as (g & n' & tr & Hrun & Ht & Hb).
    exists (<["losGeometry":=g]> c), n',
      (callTrace (c !! "geom") "refreshWalls" [] ++
       callTrace (c !! "shadowMesh") "updateLightPosition" [] ++
       callTrace (c !! "shadowVisionLOSMesh") "updateLightPosition" [] ++ tr).
    split; [|split; [|split]].
    + rewrite (bind_returns _ _ _ _ _ _ (optCall_run src c n _ _ _ Hev Hg)).
      rewrite (bind_returns _ _ _ _ _ _ (optCall_run src c n _ _ _ Hev Hm)).
      rewrite (bind_returns _ _ _ _ _ _ (optCall_run src c n _ _ _ Hev Hl)).
      cbn [when]. rewrite Hrun. reflexivity.
    + intros k Hk. now rewrite lookup_insert_ne.
    + rewrite !List.filter_app, Ht, !filter_callTrace; easy.
    + rewrite !List.filter_app, Hb, !filter_callTrace; easy.
  - exists c, n,
      (callTrace (c !! "geom") "refreshWalls" [] ++
       callTrace (c !! "shadowMesh") "updateLightPosition" [] ++
       callTrace (c !! "shadowVisionLOSMesh") "updateLightPosition" [] ++ []).
    split; [|split; [|split]].
    + rewrite (bind_returns _ _ _ _ _ _ (optCall_run src c n _ _ _ Hev Hg)).
      rewrite (bind_returns _ _ _ _ _ _ (optCall_run src c n _ _ _ Hev Hm)).
      rewrite (bind_returns _ _ _ _ _ _ (optCall_run src c n _ _ _ Hev Hl)).
      cbn [when]. rewrite (with_ev_same _ _ Hev). reflexivity.
    + reflexivity.
    + rewrite !List.filter_app, !filter_callTrace; easy.
    + rewrite !List.filter_app, !filter_callTrace; easy.
Qed.

Lemma updateSourceRadius_run (src : Source) (c : gmap string Obj) (n : nat) (r : Renderer) :
  ev src = Some c ->
  c !! "shadowRenderer" = Some (Rendering r) ->
  optCallRenderer "shadowRenderer" (updateSourceRadius host) "updateSourceRadius" (mkSt src n) =
    mkRun (Ret tt) (mkSt src n)
      [ESetResolution (renderTexture r) (resolution host (r_class r) src);
       EResize (renderTexture r) (width host (r_class r) src) (height host (r_class r) src);
       ESetPosition (mesh r)
         (mkPoint (- px (topLeft host (r_class r) src)) (- py (topLeft host (r_class r) src)));
       ERender (mesh r) (renderTexture r)].
Proof.
  intros Hev Hr. unfold optCallRenderer, bind, slot. cbn [this]. rewrite Hev.
  cbn [outcome_of state_of trace_of]. rewrite Hr. reflexivity.
Qed.

Lemma updateQuadMeshGeometry_run (src : Source) (c : gmap string Obj) (n : nat) :
  ev src = Some c ->
  is_Some (c !! "shadowRenderer") ->
  not_renderer (c !! "shadowQuadMesh") = true ->
  updateQuadMeshGeometry (mkSt src n) =
    mkRun (Ret tt) (mkSt src n) (callTrace (c !! "shadowQuadMesh") "updateGeometry" []).
Proof.
  intros Hev [o Hr] Hq. unfold updateQuadMeshGeometry, bind, slot. cbn [this]. rewrite Hev.
  cbn [outcome_of state_of trace_of].
  destruct (c !! "shadowQuadMesh") as [[]|]; try discriminate;
    cbn [this outcome_of state_of trace_of]; rewrite ?Hev;
    cbn [outcome_of state_of trace_of]; rewrite ?Hr; reflexivity.
Qed.

Lemma maskSetScale_run (src : Source) (c : gmap string Obj) (n : nat) (o : Obj) (p : Point) :
  ev src = Some c ->
  c !! "shadowVisionMask" = Some o ->
  maskSetScale p (mkSt src n) = mkRun (Ret tt) (mkSt src n) [ESetScale (oid o) p].
Proof.
  intros Hev Hm. unfold maskSetScale, bind, slot. cbn [this]. rewrite Hev.
  cbn [outcome_of state_of trace_of]. rewrite Hm. reflexivity.
Qed.

Lemma hasOwn_radius_only (changes : gset string) (st : St) :
  hasOwn changes "x" || hasOwn changes "y" = false ->
  hasOwn changes "radius" = true ->
  configureShadows host changes st =
  match ev (this st) with
  | None => ret tt
  | Some _ =>
      ((optCall "geom" "refreshWalls" [] ;;
        optCall "shadowMesh" "updateLightPosition" [] ;;
        optCall "shadowVisionLOSMesh" "updateLightPosition" [] ;;
        when (instanceof_VisionSource (constructor (this st)))
          updateLOSGeometryVisionSource) ;;
       optCallRenderer "shadowRenderer" (updateSourceRadius host) "updateSourceRadius" ;;
       updateQuadMeshGeometry ;;
       maskSetScale (mkPoint (radius (this st)) (radius (this st))))%js
  end st.
Proof.
  intros Hp Hr. unfold configureShadows. rewrite bind_get.
  destruct (ev (this st)); [|reflexivity].
  rewrite Hp, Hr. rewrite orb_true_r. reflexivity.
Qed.

(** C3: when the radius changed and the position did not, the wrap, on a
    cache that is ready, sets the resolution of the render texture to the
    recomputed resolution, resizes it to the new width and height, and
    rasterizes into it exactly once; it constructs no shadow mesh and no
    wall geometry, and the cache keeps its mesh, geometry and renderer. *)
Theorem radius_change_resizes_once (wrapped : gset string -> M St unit)
  (changes : gset string) (st st1 : St) (tr1 : list Event)
  (c : gmap string Obj) (r : Renderer) :
  hasOwn changes "x" || hasOwn changes "y" = false ->
  hasOwn changes "radius" = true ->
  wrapped changes st = mkRun (Ret tt) st1 tr1 ->
  ev (this st1) = Some c ->
  ready c r ->
  exists tr c',
    outcome_of (_configureRenderedPointSource host wrapped changes st) = Ret tt /\
    trace_of (_configureRenderedPointSource host wrapped changes st) = tr1 ++ tr /\
    List.filter is_texture_event tr =
      [ESetResolution (renderTexture r) (resolution host (r_class r) (this st1));
       EResize (renderTexture r) (width host (r_class r) (this st1))
         (height host (r_class r) (this st1));
       ERender (mesh r) (renderTexture r)] /\
    List.filter builds_mesh tr = [] /\
    ev (this (state_of (_configureRenderedPointSource host wrapped changes st))) = Some c' /\
    c' !! "shadowMesh" = c !! "shadowMesh" /\
    c' !! "wallGeometry" = c !! "wallGeometry" /\
    c' !! "shadowRenderer" = c !! "shadowRenderer".
Proof.
  intros Hp Hrad Hw Hev (Hr & [o Hmask] & Hg & Hm & Hl & Hq).
  destruct st1 as [src n]. cbn [this] in *.
  destruct (refresh_run src c n (instanceof_VisionSource (constructor src)) Hev Hg Hm Hl)
    as (c' & n' & tr & Hrun & Hsame & Ht & Hb).
  assert (ev (with_ev src (Some c')) = Some c') as Hev' by reflexivity.
  assert (c' !! "shadowRenderer" = Some (Rendering r)) as Hr' by (now rewrite Hsame).
  assert (c' !! "shadowVisionMask" = Some o) as Hmask' by (now rewrite Hsame).
  assert (not_renderer (c' !! "shadowQuadMesh") = true) as Hq' by (now rewrite Hsame).
  set (p := mkPoint (radius src) (radius src)).
  exists (tr ++
          [ESetResolution (renderTexture r) (resolution host (r_class r) src);
           EResize (renderTexture r) (width host (r_class r) src) (height host (r_class r) src);
           ESetPosition (mesh r)
             (mkPoint (- px (topLeft host (r_class r) src)) (- py (topLeft host (r_class r) src)));
           ERender (mesh r) (renderTexture r)] ++
          callTrace (c' !! "shadowQuadMesh") "updateGeometry" [] ++
          [ESetScale (oid o) p]), c'.
  assert (_configureRenderedPointSource host wrapped changes st =
          mkRun (Ret tt) (mkSt (with_ev src (Some c')) n')
            (tr1 ++ tr ++
             [ESetResolution (renderTexture r) (resolution host (r_class r) src);
              EResize (renderTexture r) (width host (r_class r) src) (height host (r_class r) src);
              ESetPosition (mesh r)
                (mkPoint (- px (topLeft host (r_class r) src)) (- py (topLeft host (r_class r) src)));
              ERender (mesh r) (renderTexture r)] ++
             callTrace (c' !! "shadowQuadMesh") "updateGeometry" [] ++
             [ESetScale (oid o) p])) as E.
  { unfold _configureRenderedPointSource.
    rewrite (bind_returns _ _ _ _ _ _ Hw).
    rewrite (hasOwn_radius_only _ _ Hp Hrad). cbn [this]. rewrite Hev.
    rewrite (bind_returns _ _ _ _ _ _ Hrun).
    rewrite (bind_returns _ _ _ _ _ _
               (updateSourceRadius_run (with_ev src (Some c')) c' n' r Hev' Hr')).
    rewrite (bind_returns _ _ _ _ _ _
               (updateQuadMeshGeometry_run (with_ev src (Some c')) c' n' Hev'
                  (ex_intro _ _ Hr') Hq')).
    cbv beta.
    rewrite (maskSetScale_run (with_ev src (Some c')) c' n' o _ Hev' Hmask').
    reflexivity. }
  rewrite E. cbn [outcome_of state_of trace_of this].
  split; [reflexivity|]. split; [reflexivity|]. split; [|split; [|split]].
  - rewrite !List.filter_app, Ht, filter_callTrace by easy. reflexivity.
  - rewrite !List.filter_app, Hb, filter_callTrace by easy. reflexivity.
  - reflexivity.
  - repeat split; now apply Hsame.
Qed.

End RadiusPath.

Lemma radius_change_resizes_once_witness :
  exists tr c',
    outcome_of (_configureRenderedPointSource sampleHost (fun _ => ret tt) {["radius"]}
                  (mkSt shrunkLight 50)) = Ret tt /\
    trace_of (_configureRenderedPointSource sampleHost (fun _ => ret tt) {["radius"]}
                (mkSt shrunkLight 50)) = [] ++ tr /\
    List.filter is_texture_event tr =
      [ESetResolution 3 (resolution sampleHost ShadowTextureRenderer shrunkLight);
       EResize 3 (width sampleHost ShadowTextureRenderer shrunkLight)
         (height sampleHost ShadowTextureRenderer shrunkLight);
       ERender 1 3] /\
    List.filter builds_mesh tr = [] /\
    ev (this (state_of (_configureRenderedPointSource sampleHost (fun _ => ret tt)
                          {["radius"]} (mkSt shrunkLight 50)))) = Some c' /\
    c' !! "shadowMesh" = readyCache !! "shadowMesh" /\
    c' !! "wallGeometry" = readyCache !! "wallGeometry" /\
    c' !! "shadowRenderer" = readyCache !! "shadowRenderer".
Proof.
  apply (radius_change_resizes_once sampleHost (fun _ => ret tt) {["radius"]}
           (mkSt shrunkLight 50) (mkSt shrunkLight 50) [] readyCache readyRenderer).
  - reflexivity.
  - reflexivity.
  - reflexivity.
  - reflexivity.
  - repeat split; try reflexivity. eexists. reflexivity.
Defined.

(** ** Teardown *)

Section Teardown.
Variable host : Host.

(** A slot that is set is released by one call, an unset slot by none. *)
Lemma slotRelease_length (c : gmap string Obj) (k : string) :
  length (slotRelease c k) = match c !! k with Some _ => 1 | None => 0 end.
Proof. unfold slotRelease. destruct (c !! k) as [[]|]; reflexivity. Qed.

Lemma destroyAsset_run (src : Source) (c : gmap string Obj) (n : nat) (k : string) :
  ev src = Some c ->
  destroyAsset k (mkSt src n) =
    mkRun (Ret tt) (mkSt (with_ev src (Some (delete k c))) n) (slotRelease c k).
Proof.
  intros Hev. unfold destroyAsset, slotRelease, bind, slot. cbn [this]. rewrite Hev.
  cbn [outcome_of state_of trace_of].
  destruct (c !! k) as [o|] eqn:E; cbn [from_option].
  - unfold unset_slot.
    destruct o; cbn [callRenderer destroy emit oid releaseTrace this next_id
                       outcome_of state_of trace_of];
      rewrite Hev; cbn [outcome_of state_of trace_of]; now rewrite app_nil_r.
  - rewrite (delete_id _ _ E), (with_ev_same _ _ Hev). reflexivity.
Qed.

Lemma foldr_delete_delete (l : list string) (c : gmap string Obj) (k : string) :
  foldr delete (delete k c) l = delete k (foldr delete c l).
Proof.
  induction l as [|k' l IH]; [reflexivity|].
  cbn [foldr]. rewrite IH. apply delete_delete.
Qed.

Lemma destroyAssets_run (l : list string) (src : Source) (c : gmap string Obj) (n : nat) :
  ev src = Some c ->
  NoDup l ->
  forEach destroyAsset l (mkSt src n) =
    mkRun (Ret tt) (mkSt (with_ev src (Some (foldr delete c l))) n)
      (flat_map (slotRelease c) l).
Proof.
  revert src c. induction l as [|k l IH]; intros src c Hev Hnd.
  - cbn [forEach foldr flat_map]. now rewrite (with_ev_same _ _ Hev).
  - apply NoDup_cons in Hnd as [Hk Hnd]. cbn [forEach].
    rewrite (bind_returns _ _ _ _ _ _ (destroyAsset_run src c n k Hev)).
    rewrite (IH (with_ev src (Some (delete k c))) (delete k c) eq_refl Hnd).
    cbn [outcome_of state_of trace_of foldr flat_map].
    f_equal.
    + rewrite foldr_delete_delete. reflexivity.
    + f_equal. clear -Hk. induction l as [|k' l IHl]; [reflexivity|].
      apply not_elem_of_cons in Hk as [Hne Hk]. cbn [flat_map].
      rewrite (IHl Hk). f_equal. unfold slotRelease. now rewrite lookup_delete_ne.
Qed.

Lemma assets_NoDup : NoDup assets.
Proof. apply (bool_decide_unpack (NoDup assets)). vm_compute. exact I. Qed.

Lemma foldr_delete_lookup (l : list string) (c : gmap string Obj) (k : string) :
  k ∈ l -> foldr delete c l !! k = None.
Proof.
  induction l as [|k' l IH]; intros Hk; [now apply elem_of_nil in Hk|].
  cbn [foldr]. destruct (decide (k = k')) as [->|Hne].
  - apply lookup_delete_eq.
  - rewrite lookup_delete_ne by congruence.
    apply IH. apply elem_of_cons in Hk as [?|?]; [contradiction|assumption].
Qed.

Lemma foldr_delete_lookup_ne (l : list string) (c : gmap string Obj) (k : string) :
  k ∉ l -> foldr delete c l !! k = c !! k.
Proof.
  induction l as [|k' l IH]; intros Hk; [reflexivity|].
  apply not_elem_of_cons in Hk as [Hne Hk]. cbn [foldr].
  rewrite lookup_delete_ne by congruence. now apply IH.
Qed.

Lemma flat_map_unset (c : gmap string Obj) (l : list string) :
  (forall k, k ∈ l -> c !! k = None) ->
  flat_map (slotRelease c) l = [].
Proof.
  induction l as [|k l IH]; intros H; [reflexivity|].
  cbn [flat_map]. unfold slotRelease at 1. rewrite (H k) by apply list_elem_of_here.
  apply IH. intros k' Hk'. apply H. now apply list_elem_of_further.
Qed.

(** Teardown of a source that has a cache: one release per slot that is set,
    then the wrapped method. *)
Lemma destroyRenderedPointSource_run (wrapped : M St unit) (src : Source)
  (c : gmap string Obj) (n : nat) :
  ev src = Some c ->
  let st1 := mkSt (with_ev src (Some (foldr delete c assets))) n in
  destroyRenderedPointSource host wrapped (mkSt src n) =
    mkRun (outcome_of (wrapped st1)) (state_of (wrapped st1))
      (removeChildTrace host c ++ flat_map (slotRelease c) assets ++ trace_of (wrapped st1)).
Proof.
  intros Hev st1. unfold destroyRenderedPointSource. rewrite bind_get.
  cbn [this]. rewrite Hev.
  assert ((match c !! "shadowQuadMesh", canvas_effects_EVshadows host with
           | Some q, Some container => emit (ERemoveChild container (oid q))
           | _, _ => ret tt
           end) (mkSt src n) = mkRun (Ret tt) (mkSt src n) (removeChildTrace host c)) as E.
  { unfold removeChildTrace.
    destruct (c !! "shadowQuadMesh"); [|reflexivity].
    destruct (canvas_effects_EVshadows host); reflexivity. }
  rewrite (bind_returns _ _ _ _ _ _ E).
  rewrite (bind_returns _ _ _ _ _ _ (destroyAssets_run assets src c n Hev assets_NoDup)).
  reflexivity.
Qed.

(** A source without a cache: the wrap only calls the wrapped method. *)
Lemma destroyRenderedPointSource_no_cache (wrapped : M St unit) (st : St) :
  ev (this st) = None ->
  destroyRenderedPointSource host wrapped st = wrapped st.
Proof.
  intros H. unfold destroyRenderedPointSource. rewrite bind_get, H. reflexivity.
Qed.

(** C4 (amended): destroying the cache of a source does not fail, whatever
    subset of its slots is set; the first teardown releases what each set
    slot holds exactly once and unsets the slot, and a second teardown
    releases nothing: it only calls the wrapped method again. *)
Theorem teardown_releases_once (wrapped : M St unit) (st : St) (c : gmap string Obj) :
  ev (this st) = Some c ->
  host_only wrapped ->
  let r1 := destroyRenderedPointSource host wrapped st in
  let r2 := destroyRenderedPointSource host wrapped (state_of r1) in
  outcome_of r1 = Ret tt /\
  outcome_of r2 = Ret tt /\
  (exists tw, trace_of r1 =
     removeChildTrace host c ++ flat_map (slotRelease c) assets ++ tw /\
     tw = trace_of (wrapped (mkSt (with_ev (this st) (Some (foldr delete c assets)))
                               (next_id st)))) /\
  (exists c1, ev (this (state_of r1)) = Some c1 /\ forall k, k ∈ assets -> c1 !! k = None) /\
  r2 = wrapped (state_of r1).
Proof.
  intros Hev Hw r1 r2. destruct st as [src n]. cbn [this next_id] in *.
  pose proof (destroyRenderedPointSource_run wrapped src c n Hev) as E1.
  cbv zeta in E1. fold r1 in E1.
  set (st1 := mkSt (with_ev src (Some (foldr delete c assets))) n) in *.
  destruct (Hw st1) as [Ho1 He1].
  assert (ev (this (state_of r1)) = Some (foldr delete c assets)) as Hev1.
  { rewrite E1. cbn [state_of]. rewrite He1. reflexivity. }
  assert (forall k, k ∈ assets -> foldr delete c assets !! k = None) as Hunset.
  { intros k Hk. now apply foldr_delete_lookup. }
  assert (r2 = wrapped (state_of r1)) as E2.
  { unfold r2. destruct (state_of r1) as [src1 n1] eqn:Est. cbn [this] in Hev1.
    rewrite (destroyRenderedPointSource_run wrapped src1 _ n1 Hev1). cbv zeta.
    unfold removeChildTrace. rewrite (Hunset "shadowQuadMesh") by set_solver.
    rewrite (flat_map_unset _ _ Hunset).
    assert (foldr delete (foldr delete c assets) assets = foldr delete c assets) as ->.
    { apply map_eq. intros k. destruct (decide (k ∈ assets)) as [Hk|Hk].
      - now rewrite !foldr_delete_lookup.
      - now apply foldr_delete_lookup_ne. }
    rewrite (with_ev_same _ _ Hev1). cbn [app]. symmetry. apply run_eta. }
  split; [rewrite E1; exact Ho1|]. split.
  { rewrite E2. apply Hw. }
  split; [|split; [|exact E2]].
  - eexists. split; [|reflexivity]. rewrite E1. reflexivity.
  - exists (foldr delete c assets). split; [exact Hev1|exact Hunset].
Qed.

End Teardown.

Lemma teardown_releases_once_witness :
  destroyRenderedPointSource sampleHost (ret tt)
    (state_of (destroyRenderedPointSource sampleHost (ret tt) (mkSt readyLight 50))) =
  ret tt (state_of (destroyRenderedPointSource sampleHost (ret tt) (mkSt readyLight 50))).
Proof.
  pose proof (teardown_releases_once sampleHost (ret tt) (mkSt readyLight 50) readyCache) as H.
  cbv zeta in H. apply H.
  - reflexivity.
  - intros s. split; reflexivity.
Defined.

(** C4, as stated, fails on its last part: [ShadowTextureRenderer.destroy]
    keeps no record of having run, so a second call on the same renderer
    asks the render texture to release itself a second time. *)
Lemma second_destroy_counterexample :
  ~ second_destroy_is_noop readyRenderer (mkSt readyLight 50).
Proof. unfold second_destroy_is_noop. simpl. discriminate. Qed.

(** A vision source, initialized and torn down twice: each of its nine
    assets is released once. *)
Example teardown_after_initialization :
  let st0 := mkSt (mkSource VisionSource 10 20 300 0 None) 0 in
  let st1 := state_of (initializeSourceShadersHook sampleHost st0) in
  let r1 := destroyRenderedPointSource sampleHost (ret tt) st1 in
  let r2 := destroyRenderedPointSource sampleHost (ret tt) (state_of r1) in
  trace_of r1 ++ trace_of r2 =
    [ECall 14 "destroy" []; EDestroyTexture 3; ECall 1 "destroy" []; ECall 0 "destroy" [];
     ECall 5 "destroy" []; ECall 12 "destroy" []; ECall 6 "destroy" [];
     EDestroyTexture 8; ECall 10 "destroy" []].
Proof. vm_compute. reflexivity. Qed.

(** ** Wall changes *)

Section WallChanges.
Variable host : Host.

Lemma optCallIndex_run (method : string) (arg : nat)
  (f : Source -> gset string -> gset string) (src : Source) (c : gmap string Obj) (n : nat) :
  ev src = Some c ->
  not_renderer (c !! "wallGeometry") = true ->
  exists c' tr,
    optCallIndex method arg f (mkSt src n) =
      mkRun (Ret tt) (mkSt (with_ev src (Some c')) n) tr /\
    List.filter is_render tr = [] /\
    List.filter builds_mesh tr = [] /\
    (forall k, k <> "wallGeometry" -> c' !! k = c !! k) /\
    index_of c' =
      match c !! "wallGeometry" with
      | Some (WallGeometry _ walls) => f src walls
      | _ => ∅
      end.
Proof.
  intros Hev Hg. unfold optCallIndex, bind at 1, slot. cbn [this]. rewrite Hev.
  cbn [outcome_of state_of trace_of].
  destruct (c !! "wallGeometry") as [[id|id walls|r]|] eqn:E; try discriminate.
  - exists c, [ECall id method [arg]]. rewrite (with_ev_same _ _ Hev).
    unfold index_of. rewrite E. repeat split.
  - exists (<["wallGeometry":=WallGeometry id (f src walls)]> c), [ECall id method [arg]].
    split; [|split; [|split; [|split]]].
    + rewrite bind_get, bind_emit. unfold set_slot. cbn [this next_id]. rewrite Hev.
      reflexivity.
    + reflexivity.
    + reflexivity.
    + intros k Hk. now rewrite lookup_insert_ne.
    + unfold index_of. now rewrite lookup_insert_eq.
  - exists c, []. rewrite (with_ev_same _ _ Hev).
    unfold index_of. rewrite E. repeat split.
Qed.

Lemma update_run (src : Source) (c : gmap string Obj) (n : nat) :
  ev src = Some c ->
  exists tr,
    optCallRenderer "shadowRenderer" (update host) "update" (mkSt src n) =
      mkRun (Ret tt) (mkSt src n) tr /\
    List.filter is_render tr = rendersOf src /\
    List.filter builds_mesh tr = [].
Proof.
  intros Hev. unfold optCallRenderer, bind, slot, rendersOf. cbn [this]. rewrite Hev.
  cbn [outcome_of state_of trace_of].
  destruct (c !! "shadowRenderer") as [[id|id walls|r]|]; eexists; repeat split.
Qed.

Lemma wallLoopBody_run (method : string) (arg : nat)
  (f : Source -> gset string -> gset string) (src : Source) (n : nat) :
  loop_safe src = true ->
  exists src' tr,
    wallLoopBody host method arg f (mkSt src n) = mkRun (Ret tt) (mkSt src' n) tr /\
    List.filter is_render tr = rendersOf src /\
    List.filter builds_mesh tr = [] /\
    routed f src src'.
Proof.
  intros Hsafe. unfold wallLoopBody. rewrite bind_get. cbn [this].
  unfold routed, loop_safe in *. destruct (ev src) as [c|] eqn:Hev.
  - destruct (optCallIndex_run method arg f src c n Hev Hsafe)
      as (c' & tr & Hrun & Ht & Hb & Hsame & Hidx).
    destruct (update_run (with_ev src (Some c')) c' n eq_refl) as (tr' & Hrun' & Ht' & Hb').
    exists (with_ev src (Some c')), (tr ++ tr'). split; [|split; [|split]].
    + rewrite (bind_returns _ _ _ _ _ _ Hrun). rewrite Hrun'. reflexivity.
    + rewrite List.filter_app, Ht, Ht'. unfold rendersOf. cbn [ev with_ev].
      rewrite Hev, Hsame by discriminate. reflexivity.
    + now rewrite List.filter_app, Hb, Hb'.
    + exists c'. now repeat split.
  - exists src, []. unfold rendersOf. rewrite Hev. now repeat split.
Qed.

Lemma forSources_wall_run (method : string) (arg : nat)
  (f : Source -> gset string -> gset string) (l : list Source) (n : nat) :
  forallb loop_safe l = true ->
  exists l' tr,
    forSources (wallLoopBody host method arg f) l n = mkRun (Ret tt) (mkScene l' n) tr /\
    List.filter is_render tr = flat_map rendersOf l /\
    List.filter builds_mesh tr = [] /\
    Forall2 (routed f) l l'.
Proof.
  induction l as [|src l IH]; intros Hall.
  - exists [], []. repeat split. constructor.
  - cbn [forallb] in Hall. apply andb_prop in Hall as [Hsafe Hall].
    destruct (wallLoopBody_run method arg f src n Hsafe)
      as (src' & tr & Hrun & Ht & Hb & Hr).
    destruct (IH Hall) as (l' & tr' & Hrun' & Ht' & Hb' & Hr').
    exists (src' :: l'), (tr ++ tr'). split; [|split; [|split]].
    + cbn [forSources]. rewrite Hrun. cbn [outcome_of state_of next_id this].
      rewrite Hrun'. reflexivity.
    + cbn [flat_map]. now rewrite List.filter_app, Ht, Ht'.
    + now rewrite List.filter_app, Hb, Hb'.
    + now constructor.
Qed.

(** C2 (amended): a wall change is routed to every source that holds a
    cache, and every cache with a shadow renderer rasterizes again, exactly
    once, whether or not its index changed; the hooks construct no mesh and
    no wall geometry; a source without a cache does nothing. *)
Theorem wall_change_redraws_every_cache (wallD : WallDocument) (changes : gset string)
  (canvas : Canvas) (n : nat) :
  forallb loop_safe (sources_of canvas) = true ->
  (exists l,
     outcome_of (createWallHook host wallD canvas n) = Ret tt /\
     List.filter is_render (trace_of (createWallHook host wallD canvas n)) =
       flat_map rendersOf (sources_of canvas) /\
     List.filter builds_mesh (trace_of (createWallHook host wallD canvas n)) = [] /\
     sources (state_of (createWallHook host wallD canvas n)) = l /\
     Forall2 (routed (fun src => index_addWall host src wallD)) (sources_of canvas) l) /\
  (exists l,
     outcome_of (deleteWallHook host wallD canvas n) = Ret tt /\
     List.filter is_render (trace_of (deleteWallHook host wallD canvas n)) =
       flat_map rendersOf (sources_of canvas) /\
     List.filter builds_mesh (trace_of (deleteWallHook host wallD canvas n)) = [] /\
     sources (state_of (deleteWallHook host wallD canvas n)) = l /\
     Forall2 (routed (fun _ => index_removeWall (wall_id wallD))) (sources_of canvas) l) /\
  (existsb (hasOwn changes) (WALL_COORDINATES host)
   || existsb (hasOwn changes) (WALL_RESTRICTED host) = true ->
   exists l,
     outcome_of (updateWallHook host wallD changes canvas n) = Ret tt /\
     List.filter is_render (trace_of (updateWallHook host wallD changes canvas n)) =
       flat_map rendersOf (sources_of canvas) /\
     List.filter builds_mesh (trace_of (updateWallHook host wallD changes canvas n)) = [] /\
     sources (state_of (updateWallHook host wallD changes canvas n)) = l /\
     Forall2 (routed (fun src => index_updateWall host src wallD)) (sources_of canvas) l).
Proof.
  intros Hsafe. split; [|split].
  - unfold createWallHook.
    destruct (forSources_wall_run "addWall" (wall_object wallD)
                (fun src => index_addWall host src wallD) _ n Hsafe)
      as (l & tr & -> & Ht & Hb & Hr).
    exists l. now repeat split.
  - unfold deleteWallHook.
    destruct (forSources_wall_run "removeWall" 0
                (fun _ => index_removeWall (wall_id wallD)) _ n Hsafe)
      as (l & tr & -> & Ht & Hb & Hr).
    exists l. now repeat split.
  - intros Hflag. unfold updateWallHook. rewrite Hflag. cbn [negb].
    destruct (forSources_wall_run "updateWall" (wall_object wallD)
                (fun src => index_updateWall host src wallD) _ n Hsafe)
      as (l & tr & -> & Ht & Hb & Hr).
    exists l. now repeat split.
Qed.

(** An update that touches neither the coordinates nor the restrictions of
    the wall reaches no source. *)
Lemma updateWallHook_other_change (wallD : WallDocument) (changes : gset string)
  (canvas : Canvas) (n : nat) :
  existsb (hasOwn changes) (WALL_COORDINATES host)
  || existsb (hasOwn changes) (WALL_RESTRICTED host) = false ->
  updateWallHook host wallD changes canvas n =
    mkRun (Ret tt) (mkScene (sources_of canvas) n) [].
Proof. intros H. unfold updateWallHook. now rewrite H. Qed.

End WallChanges.

Lemma wall_change_redraws_every_cache_witness :
  exists l,
    outcome_of (deleteWallHook sampleHost sampleWall
                  (mkCanvas [readyLight; lowLight; bareLight] [] []) 100) = Ret tt /\
    List.filter is_render
      (trace_of (deleteWallHook sampleHost sampleWall
                   (mkCanvas [readyLight; lowLight; bareLight] [] []) 100)) =
      flat_map rendersOf (sources_of (mkCanvas [readyLight; lowLight; bareLight] [] [])) /\
    List.filter builds_mesh
      (trace_of (deleteWallHook sampleHost sampleWall
                   (mkCanvas [readyLight; lowLight; bareLight] [] []) 100)) = [] /\
    sources (state_of (deleteWallHook sampleHost sampleWall
                         (mkCanvas [readyLight; lowLight; bareLight] [] []) 100)) = l /\
    Forall2 (routed (fun _ => index_removeWall (wall_id sampleWall)))
      (sources_of (mkCanvas [readyLight; lowLight; bareLight] [] [])) l.
Proof.
  refine (proj1 (proj2 (wall_change_redraws_every_cache sampleHost sampleWall ∅
                          (mkCanvas [readyLight; lowLight; bareLight] [] []) 100 _))).
  vm_compute. reflexivity.
Defined.

(** The scenario of the two lights: the index of the first holds W1, the
    index of the second is empty, and the deletion of W1 rasterizes both. *)
Example delete_wall_scenario :
  index_of readyCache = {["W1"]} /\
  index_of lowCache = ∅ /\
  List.filter is_render
    (trace_of (deleteWallHook sampleHost sampleWall (mkCanvas [readyLight; lowLight] [] []) 100))
  = [ERender 1 3; ERender 21 23].
Proof. repeat split; vm_compute; reflexivity. Qed.

(** C2, as stated, fails: the index of the second light does not contain
    W1, and the deletion of W1 still rasterizes its render target. *)
Lemma unaffected_cache_redrawn_counterexample :
  ~ unaffected_cache_idle sampleHost sampleWall (mkCanvas [readyLight; lowLight] [] []) 100.
Proof.
  intros H.
  apply (H lowLight lowCache lowRenderer).
  - apply list_elem_of_further, list_elem_of_here.
  - reflexivity.
  - assert (index_of lowCache = ∅) as -> by (vm_compute; reflexivity).
    apply not_elem_of_empty.
  - reflexivity.
  - vm_compute. do 5 apply list_elem_of_further. apply list_elem_of_here.
Qed.

(** * Further properties *)

(** ** Texture sizing, both renderer classes *)

Section SizingMore.
Variable host : Host.
Local Open Scope Q_scope.

Lemma longer_side_positive (c : RendererClass) (source : Source) :
  0 < width host c source ->
  0 < Qmax (width host c source) (height host c source).
Proof. intros Hw. eapply Qlt_le_trans; [exact Hw|apply Q.le_max_l]. Qed.

(** X2: a texture whose longer side fits the budget is not scaled
    (resolution 1); a longer one is scaled by exactly 4096 over its longer
    side, which is below 1. *)
Theorem resolution_threshold (c : RendererClass) (source : Source) :
  0 < width host c source ->
  let m := Qmax (width host c source) (height host c source) in
  (m <= MAX_TEXTURE_SIZE -> resolution host c source == 1) /\
  (MAX_TEXTURE_SIZE < m ->
   resolution host c source == MAX_TEXTURE_SIZE / m /\ resolution host c source < 1).
Proof.
  intros Hw m.
  pose proof (longer_side_positive c source Hw) as Hm. fold m in Hm.
  pose proof (resolution_longer_side host c source) as E. fold m in E.
  assert (~ m == 0) as Hne by (intros E0; rewrite E0 in Hm; now apply Qlt_irrefl in Hm).
  split.
  - intros Hle. rewrite E, (Q.min_r _ _ Hle). now apply Qmult_inv_r.
  - intros Hlt. rewrite E, (Q.min_l _ _ (Qlt_le_weak _ _ Hlt)).
    split; [reflexivity|].
    apply Qlt_shift_div_r; [exact Hm|]. now rewrite Qmult_1_l.
Qed.

(** X3: for the standard renderer a larger radius never gets a larger
    resolution. *)
Theorem resolution_monotone (s1 s2 : Source) :
  0 < radius s1 ->
  radius s1 <= radius s2 ->
  resolution host ShadowTextureRenderer s2 <= resolution host ShadowTextureRenderer s1.
Proof.
  intros H1 H12.
  assert (0 < radius s1 * 2) as Hw1 by lra.
  assert (0 < radius s2 * 2) as Hw2 by lra.
  pose proof (resolution_longer_side host ShadowTextureRenderer s1) as E1.
  pose proof (resolution_longer_side host ShadowTextureRenderer s2) as E2.
  rewrite longer_side_standard in E1, E2.
  rewrite E1, E2.
  set (m1 := radius s1 * 2) in *. set (m2 := radius s2 * 2) in *.
  assert (m1 <= m2) as Hm by (unfold m1, m2; lra).
  apply Qle_shift_div_l; [exact Hw1|].
  destruct (Qlt_le_dec MAX_TEXTURE_SIZE m1) as [Hbig|Hsmall].
  - rewrite (Q.min_l _ m1 (Qlt_le_weak _ _ Hbig)).
    rewrite (Q.min_l _ m2) by (apply Qle_trans with m1; [now apply Qlt_le_weak|exact Hm]).
    rewrite Qmult_comm. apply Qle_trans with (m2 * (MAX_TEXTURE_SIZE / m2)).
    + apply Qmult_le_compat_r; [exact Hm|].
      apply Qle_shift_div_l; [exact Hw2|]. rewrite Qmult_0_l. discriminate.
    + rewrite Qmult_div_r; [apply Qle_refl|].
      intros E. rewrite E in Hw2. now apply Qlt_irrefl in Hw2.
  - rewrite (Q.min_r _ m1 Hsmall).
    apply Qle_trans with (1 * m1).
    + apply Qmult_le_compat_r; [|now apply Qlt_le_weak].
      apply Qle_shift_div_r; [exact Hw2|]. rewrite Qmult_1_l. apply Q.le_min_r.
    + rewrite Qmult_1_l. apply Qle_refl.
Qed.


End SizingMore.

Local Open Scope Q_scope.

Lemma resolution_threshold_witness :
  resolution sampleHost ShadowTextureRenderer (lightOfRadius 3000) < 1.
Proof.
  destruct (resolution_threshold sampleHost ShadowTextureRenderer (lightOfRadius 3000))
    as [_ H]; [reflexivity|].
  apply H. reflexivity.
Defined.

Lemma resolution_monotone_witness :
  resolution sampleHost ShadowTextureRenderer (lightOfRadius 3000)
  <= resolution sampleHost ShadowTextureRenderer (lightOfRadius 100).
Proof.
  apply (resolution_monotone sampleHost (lightOfRadius 100) (lightOfRadius 3000));
    [reflexivity|discriminate].
Defined.


Local Close Scope Q_scope.

(** ** Running a body step by step *)

Lemma run_bind {S A B} (m : M S A) (k : A -> M S B) (s s1 s2 : S) (a : A)
  (o : outcome B) (t1 t2 : list Event) :
  m s = mkRun (Ret a) s1 t1 ->
  k a s1 = mkRun o s2 t2 ->
  bind m k s = mkRun o s2 (t1 ++ t2).
Proof. intros E1 E2. unfold bind. rewrite E1. simpl. rewrite E2. reflexivity. Qed.

(** Resolves the lookup a body is stuck on, from the shape of the cache or
    from what is known about it. *)
Ltac in_list := repeat first [apply list_elem_of_here | apply list_elem_of_further].

Ltac exec_lookup :=
  first
    [ rewrite lookup_insert_eq
    | rewrite lookup_insert_ne by discriminate
    | rewrite lookup_empty
    | match goal with
      | H : ?c !! ?k = _ |- context [?c !! ?k] => rewrite H
      | H : forall k, k ∈ ?l -> ?c !! k = None |- context [?c !! ?k] =>
          rewrite (H k) by (unfold l; in_list)
      end ].

(** One step of a body from a state whose cache is explicit. *)
Ltac exec_step :=
  first
    [ eapply run_bind; [|cbv beta]
    | progress cbn [when instanceof_GlobalLightSource instanceof_VisionSource
                      constructor this ev next_id with_ev callRenderer callMethod
                      renderTexture_of optArg optId configureTexture oid cache_of
                      default from_option id]
    | exec_lookup
    | reflexivity ].

Ltac exec := repeat exec_step.

(** ** Initialization *)

Section Initialize.
Variable host : Host.

(** The run of the hook on a source none of whose asset slots is set. *)
Lemma initialize_run (src : Source) (n : nat) :
  instanceof_GlobalLightSource (constructor src) = false ->
  (forall k, k ∈ assets -> cache_of src !! k = None) ->
  initializeSourceShadersHook host (mkSt src n) =
    mkRun (Ret tt) (mkSt (with_ev src (Some (builtCache host src n))) (builtNext src n))
      (builtTrace host src n).
Proof.
  intros Hg Hc. destruct src as [cl x y r e e0]. cbn [constructor] in Hg.
  unfold initializeSourceShadersHook, createShader, getSlot, newRenderer,
    renderShadowMeshToTexture, updateLOSGeometryVisionSource.
  unfold builtCache, builtNext, builtTrace, builtStandard, meshPosition.
  destruct e0 as [c|]; cbn [cache_of default from_option ev id] in Hc |- *;
    destruct cl; try discriminate Hg;
    (etransitivity; [exec|reflexivity]).
Qed.

Lemma builtCache_other (src : Source) (n : nat) (k : string) :
  k ∉ assets -> builtCache host src n !! k = cache_of src !! k.
Proof.
  intros Hk. unfold builtCache, builtStandard.
  destruct (instanceof_VisionSource (constructor src));
    rewrite !lookup_insert_ne; try reflexivity;
    intros <-; apply Hk; unfold assets; in_list.
Qed.

Lemma builtCache_standard (src : Source) (n : nat) :
  builtCache host src n !! "wallGeometry" = Some (WallGeometry n (index_create host src)) /\
  builtCache host src n !! "shadowMesh" = Some (External (1 + n)) /\
  builtCache host src n !! "shadowRenderer" =
    Some (Rendering (mkRenderer ShadowTextureRenderer (2 + n) (1 + n) (3 + n))) /\
  builtCache host src n !! "shadowVisionMask" = Some (External (5 + n)) /\
  is_Some (builtCache host src n !! "shadowQuadMesh").
Proof.
  unfold builtCache, builtStandard.
  destruct (instanceof_VisionSource (constructor src));
    repeat split; repeat exec_lookup; eauto.
Qed.

Lemma builtCache_vision (src : Source) (n : nat) :
  instanceof_VisionSource (constructor src) = true ->
  builtCache host src n !! "shadowVisionLOSMesh" = Some (External (6 + n)) /\
  builtCache host src n !! "shadowVisionLOSRenderer" =
    Some (Rendering (mkRenderer ShadowVisionLOSTextureRenderer (7 + n) (6 + n) (8 + n))) /\
  builtCache host src n !! "losGeometry" = Some (External (10 + n)) /\
  builtCache host src n !! "shadowVisionLOSMask" = Some (External (12 + n)) /\
  builtCache host src n !! "shadowQuadMesh" = Some (External (14 + n)).
Proof.
  intros Hv. unfold builtCache, builtStandard. rewrite Hv.
  repeat split; repeat exec_lookup; reflexivity.
Qed.

Lemma builtCache_plain (src : Source) (n : nat) (k : string) :
  instanceof_VisionSource (constructor src) = false ->
  k ∈ losSlots ->
  builtCache host src n !! k = cache_of src !! k.
Proof.
  intros Hv Hk. unfold builtCache, builtStandard. rewrite Hv.
  unfold losSlots in Hk.
  repeat (apply elem_of_cons in Hk as [->|Hk]);
    [repeat exec_lookup; reflexivity ..|].
  now apply elem_of_nil in Hk.
Qed.


(** The run of the hook on a cache that is complete. *)
Lemma initialize_again_run (src : Source) (c : gmap string Obj) (n : nat) (r : Renderer) :
  ev src = Some c ->
  instanceof_GlobalLightSource (constructor src) = false ->
  complete (instanceof_VisionSource (constructor src)) c r ->
  initializeSourceShadersHook host (mkSt src n) =
    mkRun (Ret tt) (mkSt src n)
      [ESetPosition (mesh r) (meshPosition host (r_class r) src);
       ERender (mesh r) (renderTexture r);
       ESetUniform "illumination" "uEVShadowSampler" (UBaseTexture (renderTexture r));
       ESetUniform "coloration" "uEVShadowSampler" (UBaseTexture (renderTexture r));
       ESetUniform "background" "uEVShadowSampler" (UBaseTexture (renderTexture r))].
Proof.
  intros Hev Hg ([owg Hwg] & [om Hm] & Hr & [ok Hk] & [oq Hq] & Hlos).
  destruct src as [cl x y rad e e0]. cbn [ev constructor] in *. subst e0.
  unfold initializeSourceShadersHook, createShader, getSlot, renderShadowMeshToTexture,
    meshPosition.
  destruct cl; try discriminate Hg; cbn [instanceof_VisionSource] in Hlos;
    try (destruct (Hlos eq_refl) as [ol Hl]);
    (etransitivity; [exec|reflexivity]).
Qed.


End Initialize.



(** ** Initialization and teardown together *)

Section Lifecycle.
Variable host : Host.

(** Closes a goal that two of the listed events are equal. *)
Ltac distinct_events :=
  repeat match goal with
         | H : _ ∈ _ :: _ |- _ => apply elem_of_cons in H as [H|H]
         | H : _ ∈ [] |- _ => now apply elem_of_nil in H
         | H : @eq Event _ _ |- _ => first [discriminate H | injection H; intros; lia]
         end.

Lemma initialize_releases (src : Source) (n : nat) :
  ev src = None ->
  flat_map (slotRelease (builtCache host src n)) assets =
    if instanceof_VisionSource (constructor src)
    then [ECall (14 + n) "destroy" []; EDestroyTexture (3 + n); ECall (1 + n) "destroy" [];
          ECall n "destroy" []; ECall (5 + n) "destroy" []; ECall (12 + n) "destroy" [];
          ECall (6 + n) "destroy" []; EDestroyTexture (8 + n); ECall (10 + n) "destroy" []]
    else [ECall (7 + n) "destroy" []; EDestroyTexture (3 + n); ECall (1 + n) "destroy" [];
          ECall n "destroy" []; ECall (5 + n) "destroy" []].
Proof.
  intros Hev. unfold builtCache, builtStandard, cache_of. rewrite Hev.
  cbn [default from_option flat_map assets]. unfold slotRelease.
  destruct (instanceof_VisionSource (constructor src));
    repeat exec_lookup; reflexivity.
Qed.

(** X7: a new source, initialized and then torn down: the teardown destroys
    exactly the render textures the initialization created, in the order
    of their creation, releases no object twice, and then calls the wrapped
    method. *)
Theorem teardown_releases_what_initialize_built (wrapped : M St unit) (src : Source)
  (n : nat) :
  instanceof_GlobalLightSource (constructor src) = false ->
  ev src = None ->
  let r1 := initializeSourceShadersHook host (mkSt src n) in
  let r2 := destroyRenderedPointSource host wrapped (state_of r1) in
  exists own st',
    trace_of r2 = own ++ trace_of (wrapped st') /\
    outcome_of r2 = outcome_of (wrapped st') /\
    NoDup own /\
    destroyed_textures own = created_textures (trace_of r1) /\
    NoDup (destroyed_textures own) /\
    (exists c', ev (this st') = Some c' /\ forall k, k ∈ assets -> c' !! k = None).
Proof.
  intros Hg Hev r1 r2.
  assert (forall k, k ∈ assets -> cache_of src !! k = None) as Hc.
  { intros k _. unfold cache_of. rewrite Hev. apply lookup_empty. }
  assert (r1 = mkRun (Ret tt)
                 (mkSt (with_ev src (Some (builtCache host src n))) (builtNext src n))
                 (builtTrace host src n)) as E1 by apply (initialize_run host src n Hg Hc).
  unfold r2. rewrite E1. cbn [state_of trace_of].
  rewrite (destroyRenderedPointSource_run host wrapped
             (with_ev src (Some (builtCache host src n))) (builtCache host src n)
             (builtNext src n) eq_refl).
  cbv zeta. cbn [trace_of outcome_of].
  rewrite (initialize_releases src n Hev).
  eexists (removeChildTrace host (builtCache host src n) ++ _), _.
  split; [now rewrite <- app_assoc|]. split; [reflexivity|].
  assert (exists q, builtCache host src n !! "shadowQuadMesh" = Some (External q) /\
                    (n <= q)%nat) as (q & Hq & Hqn).
  { unfold builtCache.
    destruct (instanceof_VisionSource (constructor src));
      rewrite lookup_insert_eq; eexists; (split; [reflexivity|lia]). }
  unfold removeChildTrace, builtTrace, created_textures. rewrite Hq.
  split; [|split; [|split]].
  - destruct (canvas_effects_EVshadows host);
      destruct (instanceof_VisionSource (constructor src)); cbn [app];
      repeat (apply NoDup_cons; split; [intros H; distinct_events|]);
      apply NoDup_nil; exact I.
  - destruct (canvas_effects_EVshadows host);
      destruct (instanceof_VisionSource (constructor src)); reflexivity.
  - destruct (canvas_effects_EVshadows host);
      destruct (instanceof_VisionSource (constructor src)); cbn;
      repeat (apply NoDup_cons; split;
              [rewrite ?elem_of_cons, elem_of_nil; intros H; intuition lia|]);
      apply NoDup_nil; exact I.
  - eexists. split; [reflexivity|]. intros k Hk. now apply foldr_delete_lookup.
Qed.

Lemma ids_below_lookup (n : nat) (c : gmap string Obj) (k : string) (o : Obj) (i : nat) :
  ids_below n c = true -> c !! k = Some o -> In i (ids_of o) -> (i < n)%nat.
Proof.
  intros Hb Hk Hi. unfold ids_below in Hb.
  rewrite forallb_forall in Hb.
  assert (In (k, o) (map_to_list c)) as Hin.
  { apply list_elem_of_In. now apply elem_of_map_to_list. }
  specialize (Hb _ Hin). cbn [snd] in Hb.
  rewrite forallb_forall in Hb. apply Nat.ltb_lt. now apply Hb.
Qed.

(** X8: a source that has a cache, torn down and then initialized again,
    when every identity the cache held was handed out before and the
    wrapped method does not lower the counter: the hook returns and
    rebuilds wall geometry, mesh, renderer, vision mask and quad mesh, and
    the render textures it creates have identities that no object of the
    old cache held: neither as its own, nor as its mesh, nor as its render
    texture. *)
Theorem initialize_after_teardown (wrapped : M St unit) (src : Source)
  (c : gmap string Obj) (n : nat) :
  ev src = Some c ->
  instanceof_GlobalLightSource (constructor src) = false ->
  source_untouched wrapped ->
  counter_kept wrapped ->
  ids_below n c = true ->
  let r1 := destroyRenderedPointSource host wrapped (mkSt src n) in
  let r2 := initializeSourceShadersHook host (state_of r1) in
  outcome_of r1 = Ret tt /\
  outcome_of r2 = Ret tt /\
  exists c2 r,
    ev (this (state_of r2)) = Some c2 /\
    complete (instanceof_VisionSource (constructor src)) c2 r /\
    c2 !! "shadowMesh" = Some (External (mesh r)) /\
    (n <= next_id (state_of r1) <= renderTexture r)%nat /\
    created_textures (trace_of r2) =
      renderTexture r ::
      (if instanceof_VisionSource (constructor src) then [5 + renderTexture r] else []) /\
    (forall k o rt, c !! k = Some o -> In rt (created_textures (trace_of r2)) ->
       ~ In rt (ids_of o)).
Proof.
  intros Hev Hg Hw Hcount Hbelow r1 r2.
  pose proof (destroyRenderedPointSource_run host wrapped src c n Hev) as E1.
  cbv zeta in E1. fold r1 in E1.
  set (st1 := mkSt (with_ev src (Some (foldr delete c assets))) n) in *.
  destruct (Hw st1) as [Ho Hthis].
  assert (state_of r1 = mkSt (with_ev src (Some (foldr delete c assets)))
                          (next_id (state_of r1))) as Est.
  { rewrite E1. cbn [state_of]. destruct (state_of (wrapped st1)) as [s1 n1].
    cbn [this next_id] in *. now rewrite Hthis. }
  set (src1 := with_ev src (Some (foldr delete c assets))) in *.
  set (n1 := next_id (state_of r1)) in *.
  assert (forall k, k ∈ assets -> cache_of src1 !! k = None) as Hc.
  { intros k Hk. now apply foldr_delete_lookup. }
  assert (r2 = mkRun (Ret tt) (mkSt (with_ev src1 (Some (builtCache host src1 n1)))
                                (builtNext src1 n1)) (builtTrace host src1 n1)) as E2.
  { unfold r2. rewrite Est. apply (initialize_run host src1 n1 Hg Hc). }
  split; [rewrite E1; exact Ho|]. rewrite E2. split; [reflexivity|].
  cbn [state_of this trace_of ev with_ev].
  destruct (builtCache_standard host src1 n1) as (Hwg & Hm & Hr & Hk & Hq).
  exists (builtCache host src1 n1),
    (mkRenderer ShadowTextureRenderer (2 + n1) (1 + n1) (3 + n1)).
  split; [reflexivity|]. split.
  { unfold complete. rewrite Hwg, Hm, Hr, Hk. repeat split; eauto.
    intros Hv. destruct (builtCache_vision host src1 n1 Hv) as (-> & _). eauto. }
  assert (n <= n1)%nat as Hn.
  { unfold n1. rewrite E1. cbn [state_of]. apply (Hcount st1). }
  assert (created_textures (builtTrace host src1 n1) =
          (3 + n1)%nat ::
          (if instanceof_VisionSource (constructor src) then [(5 + (3 + n1))%nat] else []))
    as Hcreated.
  { unfold builtTrace, created_textures. cbn [constructor src1 with_ev].
    destruct (instanceof_VisionSource (constructor src)); reflexivity. }
  split; [exact Hm|]. split; [cbn [renderTexture]; lia|].
  split; [exact Hcreated|].
  intros k o rt Hko Hrt Hin. rewrite Hcreated in Hrt.
  pose proof (ids_below_lookup n c k o rt Hbelow Hko Hin) as Hlt.
  destruct (instanceof_VisionSource (constructor src)); cbn [In] in Hrt;
    intuition lia.
Qed.

End Lifecycle.

Lemma teardown_releases_what_initialize_built_witness :
  exists own st',
    trace_of (destroyRenderedPointSource sampleHost (ret tt)
                (state_of (initializeSourceShadersHook sampleHost (mkSt newViewer 0)))) =
      own ++ trace_of (ret (S := St) tt st') /\
    NoDup own /\
    destroyed_textures own =
      created_textures (trace_of (initializeSourceShadersHook sampleHost (mkSt newViewer 0))).
Proof.
  destruct (teardown_releases_what_initialize_built sampleHost (ret tt) newViewer 0
              eq_refl eq_refl) as (own & st' & H1 & _ & H2 & H3 & _).
  exists own, st'. exact (conj H1 (conj H2 H3)).
Defined.

Lemma initialize_after_teardown_witness :
  outcome_of (initializeSourceShadersHook sampleHost
                (state_of (destroyRenderedPointSource sampleHost (ret tt)
                             (mkSt readyLight 50)))) = Ret tt.
Proof.
  pose proof (initialize_after_teardown sampleHost (ret tt) readyLight readyCache 50) as H.
  cbv zeta in H. apply H.
  - reflexivity.
  - reflexivity.
  - intros s. split; reflexivity.
  - intros s. apply Nat.le_refl.
  - vm_compute. reflexivity.
Defined.

(** ** More on the configure wrap *)

Section ConfigureMore.
Variable host : Host.

Lemma configureShadows_other_fields (changes : gset string) (st : St) :
  hasOwn changes "x" = false ->
  hasOwn changes "y" = false ->
  hasOwn changes "radius" = false ->
  hasOwn changes "elevation" = false ->
  configureShadows host changes st = mkRun (Ret tt) st [].
Proof.
  intros Hx Hy Hr He. unfold configureShadows. rewrite bind_get.
  destruct (ev (this st)); [|reflexivity].
  rewrite Hx, Hy, Hr, He. reflexivity.
Qed.

(** X9: a notification that changes none of x, y, radius and elevation is
    ignored: the wrap does what the wrapped method does and nothing more,
    whatever the cache holds. *)
Theorem configure_ignores_other_fields (wrapped : gset string -> M St unit)
  (changes : gset string) (st : St) :
  hasOwn changes "x" = false ->
  hasOwn changes "y" = false ->
  hasOwn changes "radius" = false ->
  hasOwn changes "elevation" = false ->
  _configureRenderedPointSource host wrapped changes st = wrapped changes st.
Proof.
  intros Hx Hy Hr He. unfold _configureRenderedPointSource, bind.
  destruct (wrapped changes st) as [[[]|err] st1 tr1];
    cbn [outcome_of state_of trace_of]; [|reflexivity].
  rewrite (configureShadows_other_fields _ _ Hx Hy Hr He). simpl. now rewrite app_nil_r.
Qed.

Let frugal (e : Event) : Prop := allocates e = false.

Lemma optCall_frugal (k method : string) (args : list nat) :
  emits_only frugal (optCall k method args).
Proof. unfold optCall, callMethod. emits; reflexivity. Qed.

Lemma updateLOSGeometryVisionSource_frugal :
  emits_only frugal updateLOSGeometryVisionSource.
Proof. unfold updateLOSGeometryVisionSource. emits; reflexivity. Qed.

Lemma optCallRenderer_frugal (k name : string) (f : Renderer -> M St unit) :
  (forall r, emits_only frugal (f r)) ->
  emits_only frugal (optCallRenderer k f name).
Proof.
  intros Hf. unfold optCallRenderer, callRenderer.
  apply emits_only_bind; [apply emits_only_slot|].
  intros [[| |r]|]; try apply Hf; try apply emits_only_ret;
    apply emits_only_emit; reflexivity.
Qed.

Lemma update_frugal (r : Renderer) : emits_only frugal (update host r).
Proof. unfold update, renderShadowMeshToTexture. emits; reflexivity. Qed.

Lemma updateSourceRadius_frugal (r : Renderer) :
  emits_only frugal (updateSourceRadius host r).
Proof. unfold updateSourceRadius, renderShadowMeshToTexture. emits; reflexivity. Qed.

Lemma updateQuadMeshGeometry_frugal : emits_only frugal updateQuadMeshGeometry.
Proof. unfold updateQuadMeshGeometry, callMethod. emits; reflexivity. Qed.

Lemma maskCopyPosition_frugal (p : Point) : emits_only frugal (maskCopyPosition p).
Proof. unfold maskCopyPosition. emits; reflexivity. Qed.

Lemma maskSetScale_frugal (p : Point) : emits_only frugal (maskSetScale p).
Proof. unfold maskSetScale. emits; reflexivity. Qed.

Lemma optCallIndex_frugal (method : string) (arg : nat)
  (f : Source -> gset string -> gset string) :
  emits_only frugal (optCallIndex method arg f).
Proof. unfold optCallIndex, callMethod. emits; reflexivity. Qed.

Ltac frugal_step :=
  first
    [ apply optCall_frugal | apply updateLOSGeometryVisionSource_frugal
    | apply optCallRenderer_frugal;
        [intros ?; first [apply update_frugal | apply updateSourceRadius_frugal]]
    | apply updateQuadMeshGeometry_frugal | apply maskCopyPosition_frugal
    | apply maskSetScale_frugal | apply optCallIndex_frugal
    | apply emits_only_when | apply emits_only_ret | apply emits_only_get
    | apply emits_only_bind; [|intros ?]
    | match goal with
      | |- emits_only _ (match ?x with _ => _ end) => destruct x
      | |- emits_only _ (if ?x then _ else _) => destruct x
      end ].

Lemma configureShadows_frugal (changes : gset string) :
  emits_only frugal (configureShadows host changes).
Proof. unfold configureShadows. repeat frugal_step. Qed.

Lemma wallLoopBody_frugal (method : string) (arg : nat)
  (f : Source -> gset string -> gset string) :
  emits_only frugal (wallLoopBody host method arg f).
Proof. unfold wallLoopBody. repeat frugal_step. Qed.

Lemma forSources_emits (P : Event -> Prop) (body : M St unit) (l : list Source) (n : nat) :
  emits_only P body -> Forall P (trace_of (forSources body l n)).
Proof.
  intros Hb. revert n. induction l as [|src l IH]; intros n; [constructor|].
  cbn [forSources]. specialize (Hb (mkSt src n)).
  destruct (body (mkSt src n)) as [[[]|err] st1 tr1]; cbn [outcome_of state_of trace_of] in *.
  - apply Forall_app. split; [exact Hb|apply IH].
  - exact Hb.
Qed.

Lemma Forall_filter_nil (keep : Event -> bool) (tr : list Event) :
  Forall (fun e => keep e = false) tr -> List.filter keep tr = [].
Proof.
  induction 1 as [|e l He _ IH]; [reflexivity|]. simpl. now rewrite He.
Qed.

(** *** What the state shows of it *)

Section Accounting.
Variable step : string -> option Obj -> option Obj -> Prop.
Hypothesis step_refl : forall k o, step k o o.
Hypothesis step_trans : forall k o1 o2 o3, step k o1 o2 -> step k o2 o3 -> step k o1 o3.

Lemma cache_step_refl (s : Source) : cache_step step s s.
Proof. split; [reflexivity|]. destruct (ev s); [intros k; apply step_refl|exact I]. Qed.

Lemma cache_step_trans (s1 s2 s3 : Source) :
  cache_step step s1 s2 -> cache_step step s2 s3 -> cache_step step s1 s3.
Proof.
  intros [F12 C12] [F23 C23]. split; [congruence|].
  destruct (ev s1), (ev s2), (ev s3); try easy.
  intros k. eapply step_trans; [apply C12|apply C23].
Qed.

Lemma cache_steps_refl (l : list Source) : Forall2 (cache_step step) l l.
Proof. induction l; constructor; [apply cache_step_refl|assumption]. Qed.

Lemma accounted_quiet {A} (m : M St A) :
  (forall st, state_of (m st) = st) -> accounted step m.
Proof.
  intros H st. rewrite H. split; [apply cache_step_refl|lia].
Qed.

Lemma accounted_ret {A} (a : A) : accounted step (ret a).
Proof. now apply accounted_quiet. Qed.

Lemma accounted_throw {A} (err : string) : accounted step (throw (A:=A) err).
Proof. now apply accounted_quiet. Qed.

Lemma accounted_get : accounted step get.
Proof. now apply accounted_quiet. Qed.

Lemma accounted_emit (e : Event) : accounted step (emit e).
Proof. now apply accounted_quiet. Qed.

Lemma accounted_slot (k : string) : accounted step (slot k).
Proof. apply accounted_quiet. intros st. unfold slot. now destruct (ev (this st)). Qed.

Lemma accounted_bind {A B} (m : M St A) (k : A -> M St B) :
  accounted step m -> (forall a, accounted step (k a)) -> accounted step (bind m k).
Proof.
  intros Hm Hk st. unfold bind. destruct (Hm st) as [C1 N1].
  destruct (m st) as [[a|err] st1 tr1]; cbn [outcome_of state_of trace_of] in *;
    [|now split].
  destruct (Hk a st1) as [C2 N2]. split.
  - eapply cache_step_trans; [exact C1|exact C2].
  - rewrite List.filter_app, List.length_app. lia.
Qed.

Lemma accounted_when (c : bool) (m : M St unit) :
  accounted step m -> accounted step (when c m).
Proof. intros H. destruct c; [exact H|apply accounted_ret]. Qed.

Lemma forSources_accounted (body : M St unit) (l : list Source) (n : nat) :
  accounted step body ->
  Forall2 (cache_step step) l (sources (state_of (forSources body l n))) /\
  (n <= scene_next_id (state_of (forSources body l n))
   <= n + 2 * length (List.filter is_mesher (trace_of (forSources body l n))))%nat.
Proof.
  intros Hb. revert n. induction l as [|src l IH]; intros n.
  - cbn. split; [constructor|lia].
  - cbn [forSources]. destruct (Hb (mkSt src n)) as [C1 N1]. cbn [this next_id] in *.
    destruct (body (mkSt src n)) as [[[]|err] st1 tr1];
      cbn [outcome_of state_of trace_of sources scene_next_id] in *.
    + destruct (IH (next_id st1)) as [C2 N2]. split.
      * constructor; assumption.
      * rewrite List.filter_app, List.length_app. lia.
    + split; [|exact N1].
      constructor; [exact C1|apply cache_steps_refl].
Qed.

End Accounting.

Ltac accounted_step :=
  first
    [ apply accounted_bind; try assumption; [|intros ?]
    | apply accounted_when; try assumption
    | apply accounted_ret; assumption
    | apply accounted_throw; assumption
    | apply accounted_get; assumption
    | apply accounted_emit; assumption
    | apply accounted_slot; assumption
    | match goal with
      | |- accounted _ (match ?x with _ => _ end) => destruct x
      | |- accounted _ (if ?x then _ else _) => destruct x
      | |- accounted _ (let '(_, _) := ?x in _) => destruct x
      end ].

Lemma los_step_refl (k : string) (o : option Obj) : los_step k o o.
Proof. now left. Qed.

Lemma los_step_trans (k : string) (o1 o2 o3 : option Obj) :
  los_step k o1 o2 -> los_step k o2 o3 -> los_step k o1 o3.
Proof. intros [->|H] H'; [exact H'|now right]. Qed.

Lemma wall_step_refl (k : string) (o : option Obj) : wall_step k o o.
Proof. now left. Qed.

Lemma wall_step_trans (k : string) (o1 o2 o3 : option Obj) :
  wall_step k o1 o2 -> wall_step k o2 o3 -> wall_step k o1 o3.
Proof.
  intros [->|[Hk H]] H'; [exact H'|].
  destruct H' as [->|[_ H']]; right; (split; [exact Hk|congruence]).
Qed.

(** Counts the meshers of an explicit trace. *)
Ltac count_meshers :=
  repeat match goal with
  | |- context [length (List.filter is_mesher ?l)] =>
      let x := eval vm_compute in (length (List.filter is_mesher l)) in
      change (length (List.filter is_mesher l)) with x
  end; lia.

Lemma with_ev_fields (s : Source) (c : option (gmap string Obj)) :
  with_ev (with_ev s c) None = with_ev s None.
Proof. reflexivity. Qed.

(** The geometry that is there is kept; an unset slot gets the geometry
    that [triangulate] returns. *)
Lemma updateLOSGeometryVisionSource_accounted :
  accounted los_step updateLOSGeometryVisionSource.
Proof.
  intros [src n]. unfold updateLOSGeometryVisionSource, bind, fresh, emit, slot, set_slot.
  cbn [outcome_of state_of trace_of this next_id].
  destruct (ev src) as [c|] eqn:Hev; cbn [outcome_of state_of trace_of this next_id].
  - destruct (c !! "losGeometry") as [o|] eqn:Hl;
      cbn [outcome_of state_of trace_of this next_id ev with_ev]; rewrite Hev;
      cbn [outcome_of state_of trace_of this next_id ev with_ev app];
      (split; [split; [reflexivity|]|count_meshers]);
      unfold cache_step; cbn [ev with_ev]; rewrite ?Hev; intros k;
      (destruct (decide (k = "losGeometry")) as [->|Hne];
       [rewrite lookup_insert_eq, Hl|rewrite lookup_insert_ne by congruence; now left]).
    + now left.
    + now right.
  - split; [split; [reflexivity|now rewrite Hev]|count_meshers].
Qed.

(** The wall geometry keeps its identity; only its index changes. *)
Lemma optCallIndex_accounted (method : string) (arg : nat)
  (f : Source -> gset string -> gset string) :
  accounted wall_step (optCallIndex method arg f).
Proof.
  intros [src n].
  unfold optCallIndex, callMethod, bind, get, emit, slot, set_slot, throw, ret.
  cbn [outcome_of state_of trace_of this next_id].
  destruct (ev src) as [c|] eqn:Hev; cbn [outcome_of state_of trace_of this next_id].
  - destruct (c !! "wallGeometry") as [[id|id walls|r]|] eqn:Hw;
      cbn [outcome_of state_of trace_of this next_id ev with_ev]; rewrite ?Hev;
      cbn [outcome_of state_of trace_of this next_id ev with_ev app];
      (split; [|count_meshers]);
      try (apply cache_step_refl; apply wall_step_refl).
    split; [reflexivity|]. cbn [ev with_ev]. rewrite Hev. intros k.
    destruct (decide (k = "wallGeometry")) as [->|Hne].
    + rewrite lookup_insert_eq, Hw. right. split; reflexivity.
    + rewrite lookup_insert_ne by congruence. now left.
  - split; [apply cache_step_refl, wall_step_refl|count_meshers].
Qed.

Section AccountedBodies.
Variable step : string -> option Obj -> option Obj -> Prop.
Hypothesis step_refl : forall k o, step k o o.
Hypothesis step_trans : forall k o1 o2 o3, step k o1 o2 -> step k o2 o3 -> step k o1 o3.

Lemma optCall_accounted (k method : string) (args : list nat) :
  accounted step (optCall k method args).
Proof. unfold optCall, callMethod. repeat accounted_step. Qed.

Lemma renderShadowMeshToTexture_accounted (r : Renderer) :
  accounted step (renderShadowMeshToTexture host r).
Proof. unfold renderShadowMeshToTexture. repeat accounted_step. Qed.

Lemma optCallRenderer_accounted (k name : string) (f : Renderer -> M St unit) :
  (forall r, accounted step (f r)) ->
  accounted step (optCallRenderer k f name).
Proof.
  intros Hf. unfold optCallRenderer, callRenderer.
  apply accounted_bind; try assumption; [now apply accounted_slot|].
  intros [[| |r]|]; first [apply Hf | now apply accounted_emit | now apply accounted_ret].
Qed.

Lemma update_accounted (r : Renderer) : accounted step (update host r).
Proof. apply renderShadowMeshToTexture_accounted. Qed.

Lemma updateSourceRadius_accounted (r : Renderer) :
  accounted step (updateSourceRadius host r).
Proof.
  unfold updateSourceRadius.
  repeat first [apply renderShadowMeshToTexture_accounted | accounted_step].
Qed.

Lemma updateQuadMeshGeometry_accounted : accounted step updateQuadMeshGeometry.
Proof. unfold updateQuadMeshGeometry, callMethod. repeat accounted_step. Qed.

Lemma maskCopyPosition_accounted (p : Point) : accounted step (maskCopyPosition p).
Proof. unfold maskCopyPosition. repeat accounted_step. Qed.

Lemma maskSetScale_accounted (p : Point) : accounted step (maskSetScale p).
Proof. unfold maskSetScale. repeat accounted_step. Qed.

End AccountedBodies.

Ltac accounted_body :=
  first
    [ apply optCall_accounted; assumption
    | apply updateLOSGeometryVisionSource_accounted
    | apply optCallIndex_accounted
    | apply optCallRenderer_accounted; try assumption;
        intros ?; first [apply update_accounted | apply updateSourceRadius_accounted];
        assumption
    | apply updateQuadMeshGeometry_accounted; assumption
    | apply maskCopyPosition_accounted; assumption
    | apply maskSetScale_accounted; assumption
    | accounted_step ].

Lemma configureShadows_accounted (changes : gset string) :
  accounted los_step (configureShadows host changes).
Proof.
  pose proof los_step_refl as Hrefl. pose proof los_step_trans as Htrans.
  unfold configureShadows. repeat accounted_body.
Qed.

Lemma wallLoopBody_accounted (method : string) (arg : nat)
  (f : Source -> gset string -> gset string) :
  accounted wall_step (wallLoopBody host method arg f).
Proof.
  pose proof wall_step_refl as Hrefl. pose proof wall_step_trans as Htrans.
  unfold wallLoopBody. repeat accounted_body.
Qed.

(** *** At most one mesher *)

Let meshfree (e : Event) : Prop := is_mesher e = false.

Lemma one_mesher_free {A} (m : M St A) : emits_only meshfree m -> one_mesher m.
Proof. intros H st. rewrite (Forall_filter_nil _ _ (H st)). cbn. lia. Qed.

Lemma one_mesher_bind_l {A B} (m : M St A) (k : A -> M St B) :
  emits_only meshfree m -> (forall a, one_mesher (k a)) -> one_mesher (bind m k).
Proof.
  intros Hm Hk st. unfold bind. specialize (Hm st).
  destruct (m st) as [[a|err] st1 tr1]; cbn [outcome_of state_of trace_of] in *.
  - rewrite List.filter_app, List.length_app, (Forall_filter_nil _ _ Hm). apply Hk.
  - rewrite (Forall_filter_nil _ _ Hm). cbn. lia.
Qed.

Lemma one_mesher_bind_r {A B} (m : M St A) (k : A -> M St B) :
  one_mesher m -> (forall a, emits_only meshfree (k a)) -> one_mesher (bind m k).
Proof.
  intros Hm Hk st. unfold bind. specialize (Hm st).
  destruct (m st) as [[a|err] st1 tr1]; cbn [outcome_of state_of trace_of] in *;
    [|exact Hm].
  rewrite List.filter_app, List.length_app, (Forall_filter_nil _ _ (Hk a st1)).
  cbn. lia.
Qed.

Lemma updateLOSGeometryVisionSource_one_mesher : one_mesher updateLOSGeometryVisionSource.
Proof.
  intros [src n]. unfold updateLOSGeometryVisionSource, bind, fresh, emit, slot, set_slot.
  cbn [outcome_of state_of trace_of this next_id].
  destruct (ev src) as [c|] eqn:Hev; cbn [outcome_of state_of trace_of this next_id];
    [|count_meshers].
  destruct (c !! "losGeometry") as [o|];
    cbn [outcome_of state_of trace_of this next_id ev with_ev]; rewrite Hev;
    count_meshers.
Qed.

Lemma optCall_meshfree (k method : string) (args : list nat) :
  emits_only meshfree (optCall k method args).
Proof. unfold optCall, callMethod. emits; reflexivity. Qed.

Lemma configure_rest_meshfree (changes : gset string) (st : St) :
  emits_only meshfree
    (if hasOwn changes "x" || hasOwn changes "y" then
       optCallRenderer "shadowRenderer" (update host) "update" ;;
       optCallRenderer "shadowVisionLOSRenderer" (update host) "update" ;;
       updateQuadMeshGeometry ;;
       maskCopyPosition (mkPoint (source_x (this st)) (source_y (this st)))
     else if hasOwn changes "radius" then
       optCallRenderer "shadowRenderer" (updateSourceRadius host) "updateSourceRadius" ;;
       updateQuadMeshGeometry ;;
       maskSetScale (mkPoint (radius (this st)) (radius (this st)))
     else if hasOwn changes "elevation" then
       optCallRenderer "shadowRenderer" (update host) "update" ;;
       optCallRenderer "shadowVisionLOSRenderer" (update host) "update"
     else ret tt)%js.
Proof.
  unfold optCallRenderer, callRenderer, update, updateSourceRadius,
    renderShadowMeshToTexture, updateQuadMeshGeometry, callMethod, maskCopyPosition,
    maskSetScale.
  emits; reflexivity.
Qed.

Lemma configureShadows_one_mesher (changes : gset string) :
  one_mesher (configureShadows host changes).
Proof.
  unfold configureShadows.
  apply one_mesher_bind_l; [apply emits_only_get|]. intros st.
  destruct (ev (this st)); [|apply one_mesher_free, emits_only_ret].
  apply one_mesher_bind_r; [|intros ?; apply configure_rest_meshfree].
  unfold when. destruct (_ || _); [|apply one_mesher_free, emits_only_ret].
  repeat (apply one_mesher_bind_l; [apply optCall_meshfree|intros ?]).
  destruct (instanceof_VisionSource _);
    [apply updateLOSGeometryVisionSource_one_mesher|apply one_mesher_free, emits_only_ret].
Qed.

Lemma wallLoopBody_meshfree (method : string) (arg : nat)
  (f : Source -> gset string -> gset string) :
  emits_only meshfree (wallLoopBody host method arg f).
Proof.
  unfold wallLoopBody, optCallIndex, optCallRenderer, callRenderer, callMethod, update,
    renderShadowMeshToTexture.
  emits; reflexivity.
Qed.

Lemma wall_loop_allocates_nothing (method : string) (arg : nat)
  (f : Source -> gset string -> gset string) (l : list Source) (n : nat) :
  hook_allocates_nothing l n (forSources (wallLoopBody host method arg f) l n).
Proof.
  pose proof (forSources_emits _ _ l n (wallLoopBody_meshfree method arg f)) as Hfree.
  apply Forall_filter_nil in Hfree.
  destruct (forSources_accounted wall_step wall_step_refl _ l n
              (wallLoopBody_accounted method arg f)) as [Hstep Hn].
  rewrite Hfree in Hn. cbn [length] in Hn.
  repeat split.
  - apply Forall_filter_nil, forSources_emits, wallLoopBody_frugal.
  - exact Hfree.
  - exact Hstep.
  - lia.
Qed.


Lemma filter_by_kind (keep kind : Event -> bool) (tr : list Event) :
  (forall e, kind e = true -> keep e = false) ->
  List.filter kind tr = tr ->
  List.filter keep tr = [].
Proof.
  intros Hk. induction tr as [|e tr IH]; [reflexivity|].
  cbn [List.filter]. destruct (kind e) eqn:E.
  - intros [= Ht]. rewrite (Hk e E). now apply IH.
  - intros Ht. exfalso.
    assert (In e (List.filter kind tr)) as Hin by (rewrite Ht; now left).
    apply List.filter_In in Hin as [_ Hin]. congruence.
Qed.

Lemma updateLOSGeometryVisionSource_exact (src : Source) (c : gmap string Obj) (n : nat) :
  ev src = Some c ->
  exists g n' args,
    updateLOSGeometryVisionSource (mkSt src n) =
      mkRun (Ret tt) (mkSt (with_ev src (Some (<["losGeometry":=g]> c))) n')
        [ENew "PolygonMesher" n []; ECall n "triangulate" args].
Proof.
  intros Hev. destruct src as [cl x y r e e0]. cbn [ev] in Hev. subst e0.
  unfold updateLOSGeometryVisionSource.
  destruct (c !! "losGeometry") as [o|] eqn:E.
  - exists o, (S n), [oid o]. etransitivity; [exec|reflexivity].
  - exists (External (S n)), (S (S n)), []. etransitivity; [exec|reflexivity].
Qed.

Lemma refresh_run_calls (src : Source) (c : gmap string Obj) (n : nat) (vision : bool) :
  ev src = Some c ->
  not_renderer (c !! "geom") = true ->
  not_renderer (c !! "shadowMesh") = true ->
  not_renderer (c !! "shadowVisionLOSMesh") = true ->
  exists c' n' tr,
    (optCall "geom" "refreshWalls" [] ;;
     optCall "shadowMesh" "updateLightPosition" [] ;;
     optCall "shadowVisionLOSMesh" "updateLightPosition" [] ;;
     when vision updateLOSGeometryVisionSource)%js (mkSt src n) =
      mkRun (Ret tt) (mkSt (with_ev src (Some c')) n') tr /\
    (forall k, k <> "losGeometry" -> c' !! k = c !! k) /\
    List.filter is_refresh tr = tr.
Proof.
  intros Hev Hg Hm Hl.
  assert (forall o m, List.filter is_refresh (callTrace o m []) = callTrace o m []) as Hct
    by (intros [o|] m; reflexivity).
  destruct vision.
  - destruct (updateLOSGeometryVisionSource_exact src c n Hev) as (g & n' & args & Hrun).
    exists (<["losGeometry":=g]> c), n'. eexists. split; [|split].
    + rewrite (bind_returns _ _ _ _ _ _ (optCall_run src c n _ _ _ Hev Hg)).
      rewrite (bind_returns _ _ _ _ _ _ (optCall_run src c n _ _ _ Hev Hm)).
      rewrite (bind_returns _ _ _ _ _ _ (optCall_run src c n _ _ _ Hev Hl)).
      cbn [when]. rewrite Hrun. reflexivity.
    + intros k Hk. now rewrite lookup_insert_ne.
    + cbn [outcome_of state_of trace_of]. rewrite !List.filter_app, !Hct. reflexivity.
  - exists c, n. eexists. split; [|split].
    + rewrite (bind_returns _ _ _ _ _ _ (optCall_run src c n _ _ _ Hev Hg)).
      rewrite (bind_returns _ _ _ _ _ _ (optCall_run src c n _ _ _ Hev Hm)).
      rewrite (bind_returns _ _ _ _ _ _ (optCall_run src c n _ _ _ Hev Hl)).
      cbn [when]. rewrite (with_ev_same _ _ Hev). reflexivity.
    + reflexivity.
    + cbn [outcome_of state_of trace_of]. rewrite !List.filter_app, !Hct. reflexivity.
Qed.

Lemma update_slot_run (src : Source) (c : gmap string Obj) (n : nat) (k : string) :
  ev src = Some c ->
  optCallRenderer k (update host) "update" (mkSt src n) =
    mkRun (Ret tt) (mkSt src n) (updateTrace host src (c !! k)).
Proof.
  intros Hev. unfold optCallRenderer, bind, slot. cbn [this]. rewrite Hev.
  cbn [outcome_of state_of trace_of].
  destruct (c !! k) as [[id|id walls|r]|]; reflexivity.
Qed.

Lemma updateTrace_textures (src : Source) (c : gmap string Obj) (k : string) :
  List.filter is_texture_event (updateTrace host src (c !! k)) = slotRenders c k.
Proof. unfold slotRenders. destruct (c !! k) as [[| |r]|]; reflexivity. Qed.

Lemma updateTrace_scale (src : Source) (o : option Obj) :
  List.filter is_scale (updateTrace host src o) = [].
Proof. destruct o as [[| |r]|]; reflexivity. Qed.

Lemma maskCopyPosition_run (src : Source) (c : gmap string Obj) (n : nat) (o : Obj)
  (p : Point) :
  ev src = Some c ->
  c !! "shadowVisionMask" = Some o ->
  not_renderer (Some o) = true ->
  maskCopyPosition p (mkSt src n) = mkRun (Ret tt) (mkSt src n) [ESetPosition (oid o) p].
Proof.
  intros Hev Hm Ho. unfold maskCopyPosition, bind, slot. cbn [this]. rewrite Hev.
  cbn [outcome_of state_of trace_of]. rewrite Hm.
  destruct o; try discriminate; reflexivity.
Qed.

Lemma configureShadows_elevation_only (changes : gset string) (st : St) :
  hasOwn changes "x" || hasOwn changes "y" = false ->
  hasOwn changes "radius" = false ->
  hasOwn changes "elevation" = true ->
  configureShadows host changes st =
  match ev (this st) with
  | None => ret tt
  | Some _ =>
      ((optCall "geom" "refreshWalls" [] ;;
        optCall "shadowMesh" "updateLightPosition" [] ;;
        optCall "shadowVisionLOSMesh" "updateLightPosition" [] ;;
        when (instanceof_VisionSource (constructor (this st)))
          updateLOSGeometryVisionSource) ;;
       optCallRenderer "shadowRenderer" (update host) "update" ;;
       optCallRenderer "shadowVisionLOSRenderer" (update host) "update")%js
  end st.
Proof.
  intros Hp Hr He. unfold configureShadows. rewrite bind_get.
  destruct (ev (this st)); [|reflexivity].
  rewrite Hp, Hr, He. reflexivity.
Qed.

Lemma configureShadows_position_body (changes : gset string) (st : St) :
  hasOwn changes "x" || hasOwn changes "y" = true ->
  configureShadows host changes st =
  match ev (this st) with
  | None => ret tt
  | Some _ =>
      ((optCall "geom" "refreshWalls" [] ;;
        optCall "shadowMesh" "updateLightPosition" [] ;;
        optCall "shadowVisionLOSMesh" "updateLightPosition" [] ;;
        when (instanceof_VisionSource (constructor (this st)))
          updateLOSGeometryVisionSource) ;;
       optCallRenderer "shadowRenderer" (update host) "update" ;;
       optCallRenderer "shadowVisionLOSRenderer" (update host) "update" ;;
       updateQuadMeshGeometry ;;
       maskCopyPosition (mkPoint (source_x (this st)) (source_y (this st))))%js
  end st.
Proof.
  intros Hp. unfold configureShadows. rewrite bind_get.
  destruct (ev (this st)); [|reflexivity].
  rewrite Hp. reflexivity.
Qed.


(** X12: when the position changed, the wrap, on a cache that is ready,
    redraws the shadow renderer once, and the line-of-sight renderer once
    if it is set, scales nothing, and last of all moves the vision mask to
    the position of the source. *)
Theorem position_change_moves_mask (wrapped : gset string -> M St unit)
  (changes : gset string) (st st1 : St) (tr1 : list Event) (c : gmap string Obj)
  (r : Renderer) (o : Obj) :
  hasOwn changes "x" || hasOwn changes "y" = true ->
  wrapped changes st = mkRun (Ret tt) st1 tr1 ->
  ev (this st1) = Some c ->
  ready c r ->
  c !! "shadowVisionMask" = Some o ->
  not_renderer (Some o) = true ->
  exists tr,
    outcome_of (_configureRenderedPointSource host wrapped changes st) = Ret tt /\
    trace_of (_configureRenderedPointSource host wrapped changes st) = tr1 ++ tr /\
    List.filter is_texture_event tr =
      ERender (mesh r) (renderTexture r) :: slotRenders c "shadowVisionLOSRenderer" /\
    List.filter is_scale tr = [] /\
    last tr = Some (ESetPosition (oid o)
                      (mkPoint (source_x (this st1)) (source_y (this st1)))).
Proof.
  intros Hp Hw Hev (Hr & _ & Hg & Hm & Hl & Hq) Hmask Ho.
  destruct st1 as [src n]. cbn [this] in *.
  destruct (refresh_run_calls src c n (instanceof_VisionSource (constructor src))
              Hev Hg Hm Hl) as (c' & n' & tr & Hrun & Hsame & Hkind).
  assert (ev (with_ev src (Some c')) = Some c') as Hev' by reflexivity.
  assert (c' !! "shadowRenderer" = Some (Rendering r)) as Hr' by (now rewrite Hsame).
  assert (c' !! "shadowVisionMask" = Some o) as Hmask' by (now rewrite Hsame).
  assert (not_renderer (c' !! "shadowQuadMesh") = true) as Hq' by (now rewrite Hsame).
  set (p := mkPoint (source_x src) (source_y src)).
  exists (tr ++ updateTrace host src (c' !! "shadowRenderer") ++
          updateTrace host src (c' !! "shadowVisionLOSRenderer") ++
          callTrace (c' !! "shadowQuadMesh") "updateGeometry" [] ++
          [ESetPosition (oid o) p]).
  assert (_configureRenderedPointSource host wrapped changes st =
          mkRun (Ret tt) (mkSt (with_ev src (Some c')) n')
            (tr1 ++ tr ++ updateTrace host src (c' !! "shadowRenderer") ++
             updateTrace host src (c' !! "shadowVisionLOSRenderer") ++
             callTrace (c' !! "shadowQuadMesh") "updateGeometry" [] ++
             [ESetPosition (oid o) p])) as E.
  { unfold _configureRenderedPointSource.
    rewrite (bind_returns _ _ _ _ _ _ Hw).
    rewrite (configureShadows_position_body _ _ Hp). cbn [this]. rewrite Hev.
    rewrite (bind_returns _ _ _ _ _ _ Hrun).
    rewrite (bind_returns _ _ _ _ _ _
               (update_slot_run (with_ev src (Some c')) c' n' "shadowRenderer" Hev')).
    rewrite (bind_returns _ _ _ _ _ _
               (update_slot_run (with_ev src (Some c')) c' n' "shadowVisionLOSRenderer" Hev')).
    rewrite (bind_returns _ _ _ _ _ _
               (updateQuadMeshGeometry_run (with_ev src (Some c')) c' n' Hev'
                  (ex_intro _ _ Hr') Hq')).
    cbv beta.
    rewrite (maskCopyPosition_run (with_ev src (Some c')) c' n' o _ Hev' Hmask' Ho).
    reflexivity. }
  rewrite E. cbn [outcome_of trace_of].
  split; [reflexivity|]. split; [reflexivity|]. split; [|split].
  - rewrite !List.filter_app, !updateTrace_textures, filter_callTrace by easy.
    rewrite (filter_by_kind is_texture_event is_refresh tr) by (try exact Hkind; now intros []).
    unfold slotRenders. rewrite Hr', (Hsame "shadowVisionLOSRenderer") by discriminate.
    cbn [app]. now rewrite app_nil_r.
  - rewrite !List.filter_app, !updateTrace_scale, filter_callTrace by easy.
    rewrite (filter_by_kind is_scale is_refresh tr) by (try exact Hkind; now intros []).
    reflexivity.
  - rewrite !app_assoc. apply last_snoc.
Qed.

End ConfigureMore.

Lemma configure_ignores_other_fields_witness :
  _configureRenderedPointSource sampleHost (fun _ => ret tt) {["rotation"]}
    (mkSt readyLight 50) = ret tt (mkSt readyLight 50).
Proof.
  apply (configure_ignores_other_fields sampleHost (fun _ => ret tt) {["rotation"]}
           (mkSt readyLight 50)); reflexivity.
Defined.


Lemma position_change_moves_mask_witness :
  exists tr,
    outcome_of (_configureRenderedPointSource sampleHost (fun _ => ret tt) {["x"]}
                  (mkSt readyLight 50)) = Ret tt /\
    trace_of (_configureRenderedPointSource sampleHost (fun _ => ret tt) {["x"]}
                (mkSt readyLight 50)) = [] ++ tr /\
    List.filter is_texture_event tr =
      ERender 1 3 :: slotRenders readyCache "shadowVisionLOSRenderer" /\
    List.filter is_scale tr = [] /\
    last tr = Some (ESetPosition 5 (mkPoint 50 50)).
Proof.
  apply (position_change_moves_mask sampleHost (fun _ => ret tt) {["x"]}
           (mkSt readyLight 50) (mkSt readyLight 50) [] readyCache readyRenderer
           (External 5)).
  - reflexivity.
  - reflexivity.
  - reflexivity.
  - repeat split; try reflexivity. eexists. reflexivity.
  - reflexivity.
  - reflexivity.
Defined.

(** ** A cache without a vision mask *)

Section MaskUnset.
Variable host : Host.

Lemma keeps_ret {A} (a : A) : keeps_mask_unset (ret a).
Proof. intros s Hs. split; [right; now exists a|exact Hs]. Qed.

Lemma keeps_throw {A} : keeps_mask_unset (throw (A:=A) TypeError).
Proof. intros s Hs. split; [now left|exact Hs]. Qed.

Lemma keeps_get : keeps_mask_unset get.
Proof. intros s Hs. split; [right; now exists s|exact Hs]. Qed.

Lemma keeps_emit (e : Event) : keeps_mask_unset (emit e).
Proof. intros s Hs. split; [right; now exists tt|exact Hs]. Qed.

Lemma keeps_fresh : keeps_mask_unset fresh.
Proof. intros s Hs. split; [right; now eexists|exact Hs]. Qed.

Lemma keeps_slot (k : string) : keeps_mask_unset (slot k).
Proof.
  intros s Hs. unfold slot. destruct (ev (this s)).
  - split; [right; now eexists|exact Hs].
  - split; [now left|exact Hs].
Qed.

Lemma keeps_set_slot (k : string) (o : Obj) :
  k <> "shadowVisionMask" -> keeps_mask_unset (set_slot k o).
Proof.
  intros Hk s (c & Hev & Hm). unfold set_slot. rewrite Hev. split.
  - right. now exists tt.
  - eexists. split; [reflexivity|]. now rewrite lookup_insert_ne.
Qed.

Lemma keeps_bind {A B} (m : M St A) (k : A -> M St B) :
  keeps_mask_unset m -> (forall a, keeps_mask_unset (k a)) -> keeps_mask_unset (bind m k).
Proof.
  intros Hm Hk s Hs. destruct (Hm s Hs) as [Ho Hs1]. unfold bind.
  destruct (m s) as [[a|err] s1 tr1]; cbn [outcome_of state_of trace_of] in *.
  - exact (Hk a s1 Hs1).
  - split; [|exact Hs1]. destruct Ho as [Ho|[a Ho]]; [|discriminate].
    left. injection Ho as ->. reflexivity.
Qed.

Lemma keeps_when (b : bool) (m : M St unit) :
  keeps_mask_unset m -> keeps_mask_unset (when b m).
Proof. intros H. destruct b; [exact H|apply keeps_ret]. Qed.

Lemma fails_bind {A B} (m : M St A) (k : A -> M St B) :
  keeps_mask_unset m -> (forall a, fails_without_mask (k a)) ->
  fails_without_mask (bind m k).
Proof.
  intros Hm Hk s Hs. destruct (Hm s Hs) as [Ho Hs1]. unfold bind.
  destruct (m s) as [[a|err] s1 tr1]; cbn [outcome_of state_of trace_of] in *.
  - exact (Hk a s1 Hs1).
  - destruct Ho as [Ho|[a Ho]]; [|discriminate].
    injection Ho as ->. reflexivity.
Qed.

Ltac keeps_step :=
  first
    [ apply keeps_ret | apply keeps_throw | apply keeps_get | apply keeps_emit
    | apply keeps_fresh | apply keeps_slot
    | apply keeps_set_slot; discriminate
    | apply keeps_when
    | apply keeps_bind; [|intros ?]
    | match goal with
      | |- keeps_mask_unset (match ?x with _ => _ end) => destruct x
      end ].

Lemma optCall_keeps (k method : string) (args : list nat) :
  keeps_mask_unset (optCall k method args).
Proof. unfold optCall, callMethod. repeat keeps_step. Qed.

Lemma updateLOSGeometryVisionSource_keeps : keeps_mask_unset updateLOSGeometryVisionSource.
Proof. unfold updateLOSGeometryVisionSource. repeat keeps_step. Qed.

Lemma update_keeps (k : string) :
  keeps_mask_unset (optCallRenderer k (update host) "update").
Proof.
  unfold optCallRenderer, callRenderer, update, renderShadowMeshToTexture.
  repeat keeps_step.
Qed.

Lemma updateSourceRadius_keeps (k : string) :
  keeps_mask_unset (optCallRenderer k (updateSourceRadius host) "updateSourceRadius").
Proof.
  unfold optCallRenderer, callRenderer, updateSourceRadius, renderShadowMeshToTexture.
  repeat keeps_step.
Qed.

Lemma updateQuadMeshGeometry_keeps : keeps_mask_unset updateQuadMeshGeometry.
Proof. unfold updateQuadMeshGeometry, callMethod. repeat keeps_step. Qed.

Lemma maskCopyPosition_fails (p : Point) : fails_without_mask (maskCopyPosition p).
Proof.
  intros s (c & Hev & Hm). unfold maskCopyPosition, bind, slot. rewrite Hev.
  cbn [outcome_of state_of trace_of]. now rewrite Hm.
Qed.

Lemma maskSetScale_fails (p : Point) : fails_without_mask (maskSetScale p).
Proof.
  intros s (c & Hev & Hm). unfold maskSetScale, bind, slot. rewrite Hev.
  cbn [outcome_of state_of trace_of]. now rewrite Hm.
Qed.

(** A change of position or radius on a cache without a vision mask. *)
Lemma configureShadows_fails (changes : gset string) :
  hasOwn changes "x" || hasOwn changes "y" || hasOwn changes "radius" = true ->
  fails_without_mask (configureShadows host changes).
Proof.
  intros Hflag s Hs. unfold configureShadows. rewrite bind_get.
  destruct Hs as (c & Hev & Hm). rewrite Hev.
  assert (mask_unset s) as Hs by (now exists c).
  revert s Hs Hev.
  intros s Hs Hev.
  refine (fails_bind _ _ _ _ s Hs).
  - apply keeps_when. repeat first
      [ apply optCall_keeps | apply updateLOSGeometryVisionSource_keeps
      | apply keeps_when | apply keeps_bind; [|intros ?] ].
  - intros _. destruct (hasOwn changes "x" || hasOwn changes "y") eqn:Hp.
    + repeat first
        [ apply maskCopyPosition_fails
        | apply fails_bind;
            [first [apply update_keeps | apply updateQuadMeshGeometry_keeps]|intros ?] ].
    + cbn [orb] in Hflag. rewrite Hflag.
      repeat first
        [ apply maskSetScale_fails
        | apply fails_bind;
            [first [apply updateSourceRadius_keeps | apply updateQuadMeshGeometry_keeps]
            |intros ?] ].
Qed.

(** X13: on a cache whose vision mask is unset, a change of position or of
    radius makes the wrap throw a TypeError, whatever else the cache holds;
    the wrap has no guard for such a cache. *)
Theorem configure_without_mask_throws (wrapped : gset string -> M St unit)
  (changes : gset string) (st st1 : St) (tr1 : list Event) :
  hasOwn changes "x" || hasOwn changes "y" || hasOwn changes "radius" = true ->
  wrapped changes st = mkRun (Ret tt) st1 tr1 ->
  mask_unset st1 ->
  outcome_of (_configureRenderedPointSource host wrapped changes st) = Throw TypeError.
Proof.
  intros Hflag Hw Hs. unfold _configureRenderedPointSource.
  rewrite (bind_returns _ _ _ _ _ _ Hw). cbn [outcome_of].
  now apply configureShadows_fails.
Qed.

(** X14: after its teardown a source still has its cache object, with the
    asset slots unset.  A wall change then does nothing for it, and a
    change of position or radius throws a TypeError unless the cache is
    initialized again first. *)
Theorem use_after_teardown (wrapped : M St unit) (src : Source) (c : gmap string Obj)
  (n : nat) :
  ev src = Some c ->
  source_untouched wrapped ->
  let st1 := state_of (destroyRenderedPointSource host wrapped (mkSt src n)) in
  (forall method arg f, wallLoopBody host method arg f st1 = mkRun (Ret tt) st1 []) /\
  (forall changes,
     hasOwn changes "x" || hasOwn changes "y" || hasOwn changes "radius" = true ->
     outcome_of (configureShadows host changes st1) = Throw TypeError).
Proof.
  intros Hev Hw st1.
  pose proof (destroyRenderedPointSource_run host wrapped src c n Hev) as E1.
  cbv zeta in E1.
  set (st0 := mkSt (with_ev src (Some (foldr delete c assets))) n) in *.
  destruct (Hw st0) as [_ Hthis].
  assert (st1 = mkSt (with_ev src (Some (foldr delete c assets))) (next_id st1)) as Est.
  { unfold st1. rewrite E1. cbn [state_of]. destruct (state_of (wrapped st0)) as [s1 n1].
    cbn [this next_id] in *. now rewrite Hthis. }
  set (c1 := foldr delete c assets) in *.
  assert (forall k, k ∈ assets -> c1 !! k = None) as Hunset
      by (intros k Hk; now apply foldr_delete_lookup).
  split.
  - intros method arg f. rewrite Est. cbn [next_id].
    unfold wallLoopBody, optCallIndex, optCallRenderer.
    etransitivity; [exec|reflexivity].
  - intros changes Hflag. apply configureShadows_fails; [exact Hflag|].
    exists c1. rewrite Est. split; [reflexivity|].
    apply Hunset. unfold assets. in_list.
Qed.

End MaskUnset.

Lemma configure_without_mask_throws_witness :
  outcome_of (_configureRenderedPointSource sampleHost (fun _ => ret tt) {["x"]}
                (mkSt tornLight 50)) = Throw TypeError.
Proof.
  apply (configure_without_mask_throws sampleHost (fun _ => ret tt) {["x"]}
           (mkSt tornLight 50) (mkSt tornLight 50) []).
  - reflexivity.
  - reflexivity.
  - eexists. split; [reflexivity|]. vm_compute. reflexivity.
Defined.

Lemma use_after_teardown_witness :
  outcome_of (configureShadows sampleHost {["radius"]}
                (state_of (destroyRenderedPointSource sampleHost (ret tt)
                             (mkSt readyLight 50)))) = Throw TypeError.
Proof.
  pose proof (use_after_teardown sampleHost (ret tt) readyLight readyCache 50) as H.
  cbv zeta in H. apply H.
  - reflexivity.
  - intros s. split; reflexivity.
  - reflexivity.
Defined.

(** ** The elevation tooltip of an ambient light *)

Section AmbientLightFacts.
Variable h : LightHost.
Local Open Scope Q_scope.

Lemma app_space_nonempty (a b : string) : a +:+ " " +:+ b <> ""%string.
Proof. destruct a; discriminate. Qed.

(** X15: the tooltip text is empty exactly when the elevation is zero or
    not a finite number; a positive elevation is printed with a plus sign
    in front, a negative one as the number prints, each followed by a space
    and the units of the grid. *)
Theorem tooltip_text_shown_iff (this : AmbientLight) :
  (_getTooltipTextAmbientLight h this = ""%string <->
   match elevationE this with None => True | Some el => el == 0 end) /\
  (forall el, elevationE this = Some el -> 0 < el ->
     _getTooltipTextAmbientLight h this =
       "+" +:+ numberToString h el +:+ " " +:+ grid_units h) /\
  (forall el, elevationE this = Some el -> el < 0 ->
     _getTooltipTextAmbientLight h this = numberToString h el +:+ " " +:+ grid_units h).
Proof.
  unfold _getTooltipTextAmbientLight. split; [|split].
  - destruct (elevationE this) as [el|]; [|easy].
    destruct (Qeq_bool el 0) eqn:E.
    + apply Qeq_bool_iff in E. easy.
    + split.
      * intros H. exfalso. destruct (Qlt_bool 0 el); [discriminate H|].
        now apply app_space_nonempty in H.
      * intros H. apply Qeq_bool_iff in H. congruence.
  - intros el -> Hpos.
    assert (Qeq_bool el 0 = false) as ->.
    { destruct (Qeq_bool el 0) eqn:E; [|reflexivity].
      apply Qeq_bool_iff in E. rewrite E in Hpos. now apply Qlt_irrefl in Hpos. }
    assert (Qlt_bool 0 el = true) as ->; [|reflexivity].
    unfold Qlt_bool. destruct (Qle_bool el 0) eqn:E; [|reflexivity].
    apply Qle_bool_iff in E. lra.
  - intros el -> Hneg.
    assert (Qeq_bool el 0 = false) as ->.
    { destruct (Qeq_bool el 0) eqn:E; [|reflexivity].
      apply Qeq_bool_iff in E. rewrite E in Hneg. now apply Qlt_irrefl in Hneg. }
    assert (Qlt_bool 0 el = false) as ->; [|reflexivity].
    unfold Qlt_bool. destruct (Qle_bool el 0) eqn:E; [reflexivity|].
    assert (el <= 0) as Hle by lra. apply Qle_bool_iff in Hle. congruence.
Qed.

(** The size both functions compute: a multiple of 20, at least 40, and
    above 40 the multiple of 20 nearest to half the grid size. *)
Lemma controlIconSize_bounds :
  40 <= controlIconSize h /\
  (exists z : Z, controlIconSize h == 20 * inject_Z z) /\
  (dimensions_size h < 60 -> controlIconSize h == 40) /\
  (60 <= dimensions_size h ->
   dimensions_size h / 2 - 10 < controlIconSize h /\
   controlIconSize h <= dimensions_size h / 2 + 10).
Proof.
  unfold controlIconSize, Math_round.
  set (x := dimensions_size h * (1 # 2) / 20 + (1 # 2)).
  assert (x == dimensions_size h * (1 # 40) + (1 # 2)) as Ex by (unfold x; field).
  assert (dimensions_size h / 2 == dimensions_size h * (1 # 2)) as Eh by field.
  pose proof (Qfloor_le x) as Hlo. pose proof (Qlt_floor x) as Hhi.
  set (k := Qfloor x) in *.
  assert (inject_Z (k + 1) == inject_Z k + 1) as Ek by (rewrite inject_Z_plus; reflexivity).
  rewrite Ek in Hhi.
  destruct (Qlt_le_dec (dimensions_size h) 60) as [Hs|Hs].
  - assert (k <= 1)%Z as Hk.
    { assert (inject_Z k < inject_Z 2) as Hk2 by (change (inject_Z 2) with 2; lra).
      rewrite <- Zlt_Qlt in Hk2. lia. }
    assert (inject_Z k <= 1) as Hk1.
    { change 1 with (inject_Z 1). now rewrite <- Zle_Qle. }
    assert (Qmax (inject_Z k * 20) 40 == 40) as E.
    { apply Q.max_r. lra. }
    repeat split; try lra.
    exists 2%Z. rewrite E. reflexivity.
  - assert (2 <= k)%Z as Hk.
    { assert (inject_Z 1 < inject_Z k) as Hk1 by (change (inject_Z 1) with 1; lra).
      rewrite <- Zlt_Qlt in Hk1. lia. }
    assert (2 <= inject_Z k) as Hk2.
    { change 2 with (inject_Z 2). now rewrite <- Zle_Qle. }
    assert (Qmax (inject_Z k * 20) 40 == inject_Z k * 20) as E.
    { apply Q.max_l. lra. }
    repeat split; try lra.
    exists k. rewrite E. ring.
Qed.

(** X16: the tooltip sits above the light by half the size of the control
    icon, which is at least 20 and a multiple of 10; from a grid size of 60
    on it is within 5 of a quarter of the grid size, below that it is 20.
    The word wrap width of the style is five times as much, so at least 100. *)
Theorem tooltip_offset_and_wrap (this : AmbientLight) :
  let y := py (position (_drawTooltipAmbientLight h this)) in
  let w := wordWrapWidth (_getTextStyleAmbientLight h) in
  w == -5 * y /\
  y <= -20 /\
  100 <= w /\
  (exists z : Z, - y == 10 * inject_Z z) /\
  (dimensions_size h < 60 -> y == -20) /\
  (60 <= dimensions_size h ->
   dimensions_size h / 4 - 5 < - y /\ - y <= dimensions_size h / 4 + 5).
Proof.
  destruct controlIconSize_bounds as (H40 & [z Hz] & Hsmall & Hlarge).
  cbn [_drawTooltipAmbientLight _getTextStyleAmbientLight position py wordWrapWidth].
  set (size := controlIconSize h) in *.
  assert (- size / 2 == - (1 # 2) * size) as Ey by field.
  assert (dimensions_size h / 2 == dimensions_size h * (1 # 2)) as Eh by field.
  assert (dimensions_size h / 4 == dimensions_size h * (1 # 4)) as Eq by field.
  repeat split.
  - rewrite Ey. ring.
  - lra.
  - lra.
  - exists z. rewrite Ey, Hz. ring.
  - intros Hs. rewrite Ey, (Hsmall Hs). reflexivity.
  - destruct (Hlarge H) as [Hlo _]. lra.
  - destruct (Hlarge H) as [_ Hhi]. lra.
Qed.

Lemma fontSize_cases :
  (dimensions_size h < 50 /\ fontSize (_getTextStyleAmbientLight h) = 20) \/
  (50 <= dimensions_size h /\ dimensions_size h < 200 /\
   fontSize (_getTextStyleAmbientLight h) = 24) \/
  (200 <= dimensions_size h /\ fontSize (_getTextStyleAmbientLight h) = 28).
Proof.
  cbn [_getTextStyleAmbientLight fontSize]. unfold Qlt_bool.
  destruct (Qle_bool 200 (dimensions_size h)) eqn:E200.
  - right. right. apply Qle_bool_iff in E200. easy.
  - assert (dimensions_size h < 200) as H200.
    { apply Qnot_le_lt. intros H. apply Qle_bool_iff in H. congruence. }
    destruct (Qle_bool 50 (dimensions_size h)) eqn:E50; cbn [negb].
    + right. left. apply Qle_bool_iff in E50. easy.
    + left. split; [|reflexivity].
      apply Qnot_le_lt. intros H. apply Qle_bool_iff in H. congruence.
Qed.

(** X17: drawing a light whose wrapped method returns leaves it with a
    tooltip: the one it had, untouched even when its text is out of date,
    or else a new one with the current text, anchored at its bottom centre;
    nothing else of the light changes, and drawing again changes nothing. *)
Theorem draw_sets_tooltip_once (wrapped : M LightSt unit) (st st1 : LightSt)
    (tr1 : list Event) :
  wrapped st = mkRun (Ret tt) st1 tr1 ->
  let r := _drawAmbientLight h wrapped st in
  outcome_of r = Ret tt /\
  trace_of r = tr1 /\
  elevationE (light (state_of r)) = elevationE (light st1) /\
  sortDirty (state_of r) = sortDirty st1 /\
  (forall tip, tooltip (light st1) = Some tip -> state_of r = st1) /\
  (tooltip (light st1) = None ->
   tooltip (light (state_of r)) =
     Some (mkTooltip (_getTooltipTextAmbientLight h (light st1))
             (_getTextStyleAmbientLight h) (mkPoint (1 # 2) 1)
             (mkPoint 0 (- controlIconSize h / 2)))) /\
  _drawAmbientLight h (ret tt) (state_of r) = mkRun (Ret tt) (state_of r) [].
Proof.
  intros Hw. unfold _drawAmbientLight, bind, get, put, ret.
  rewrite Hw. cbn [outcome_of state_of trace_of].
  destruct st1 as [[el [tip|]] dirty]; cbn;
    rewrite ?app_nil_r; repeat split; try reflexivity; try discriminate.
Qed.

(** X18: refreshing the elevation of a drawn light returns, marks the
    primary canvas group for sorting, and leaves the tooltip with the
    current text and its style, anchor and position as they were; a second
    refresh changes nothing. With the flag unset nothing happens at all. *)
Theorem refresh_updates_tooltip_text (st : LightSt) (tip : Tooltip) :
  tooltip (light st) = Some tip ->
  let r := refreshAmbientLightHook h true st in
  outcome_of r = Ret tt /\
  trace_of r = [] /\
  sortDirty (state_of r) = true /\
  elevationE (light (state_of r)) = elevationE (light st) /\
  tooltip (light (state_of r)) =
    Some (mkTooltip (_getTooltipTextAmbientLight h (light st))
            (style tip) (anchor tip) (position tip)) /\
  refreshAmbientLightHook h true (state_of r) = mkRun (Ret tt) (state_of r) [] /\
  refreshAmbientLightHook h false st = mkRun (Ret tt) st [].
Proof.
  intros Htip. unfold refreshAmbientLightHook, bind, get, put, ret.
  cbn [outcome_of state_of trace_of light]. rewrite Htip.
  destruct (String.eqb (_getTooltipTextAmbientLight h (light st)) (text tip)) eqn:E;
    cbn [outcome_of state_of trace_of light sortDirty tooltip elevationE app].
  - apply String.eqb_eq in E. rewrite Htip, E, String.eqb_refl.
    destruct tip. repeat split; reflexivity.
  - assert (forall t, _getTooltipTextAmbientLight h (mkLight (elevationE (light st)) t)
                      = _getTooltipTextAmbientLight h (light st)) as T by reflexivity.
    rewrite T. cbn [text]. rewrite String.eqb_refl.
    repeat split; reflexivity.
Qed.

(** X19: refreshing the elevation of a light that has no tooltip yet throws
    a TypeError, after the primary canvas group was marked for sorting;
    once the light was drawn the refresh returns. *)
Theorem refresh_needs_drawn_light (st : LightSt) :
  tooltip (light st) = None ->
  refreshAmbientLightHook h true st =
    mkRun (Throw TypeError) (mkLightSt (light st) true) [] /\
  outcome_of ((_drawAmbientLight h (ret tt) ;; refreshAmbientLightHook h true)%js st)
    = Ret tt.
Proof.
  intros Htip. split.
  - unfold refreshAmbientLightHook, bind, get, put, throw.
    cbn [outcome_of state_of trace_of light]. rewrite Htip. reflexivity.
  - unfold _drawAmbientLight, refreshAmbientLightHook, bind, get, put, ret.
    cbn [outcome_of state_of trace_of light]. rewrite Htip.
    cbn [outcome_of state_of trace_of light tooltip].
    assert (forall t, _getTooltipTextAmbientLight h (mkLight (elevationE (light st)) t)
                      = _getTooltipTextAmbientLight h (light st)) as T by reflexivity.
    rewrite T. cbn [_drawTooltipAmbientLight text]. rewrite String.eqb_refl. reflexivity.
Qed.

End AmbientLightFacts.

(** X20: the font size of the tooltip is 20, 24 or 28 and never decreases as
    the grid size grows. *)
Theorem font_size_monotone (h1 h2 : LightHost) :
  (dimensions_size h1 <= dimensions_size h2)%Q ->
  (fontSize (_getTextStyleAmbientLight h1) <= fontSize (_getTextStyleAmbientLight h2))%Q /\
  In (fontSize (_getTextStyleAmbientLight h1)) [20%Q; 24%Q; 28%Q].
Proof.
  intros Hle.
  destruct (fontSize_cases h1) as [[A1 ->]|[(A1 & B1 & ->)|[A1 ->]]];
    destruct (fontSize_cases h2) as [[A2 ->]|[(A2 & B2 & ->)|[A2 ->]]];
    (split; [first [ now vm_compute | exfalso; lra ] | cbn; tauto ]).
Qed.

Lemma tooltip_text_shown_iff_witness :
  _getTooltipTextAmbientLight sampleLightHost sampleLight = "+5 ft"%string /\
  _getTooltipTextAmbientLight sampleLightHost (mkLight (Some (-5)%Q) None) = "-5 ft"%string.
Proof.
  split.
  - exact (proj1 (proj2 (tooltip_text_shown_iff sampleLightHost sampleLight))
             5%Q eq_refl eq_refl).
  - exact (proj2 (proj2 (tooltip_text_shown_iff sampleLightHost
                           (mkLight (Some (-5)%Q) None)))
             (-5)%Q eq_refl eq_refl).
Defined.

Lemma tooltip_offset_and_wrap_witness :
  (py (position (_drawTooltipAmbientLight sampleLightHost sampleLight)) <= -20)%Q /\
  (100 / 4 - 5 < - py (position (_drawTooltipAmbientLight sampleLightHost sampleLight)))%Q.
Proof.
  destruct (tooltip_offset_and_wrap sampleLightHost sampleLight)
    as (_ & H1 & _ & _ & _ & H2).
  split; [exact H1|]. apply H2. vm_compute. discriminate.
Defined.

Lemma font_size_monotone_witness :
  (fontSize (_getTextStyleAmbientLight sampleLightHost)
   <= fontSize (_getTextStyleAmbientLight (mkLightHost 250 "m" (fun _ => "0"%string))))%Q.
Proof.
  refine (proj1 (font_size_monotone sampleLightHost _ _)).
  vm_compute. discriminate.
Defined.

Lemma draw_sets_tooltip_once_witness :
  tooltip (light (state_of (_drawAmbientLight sampleLightHost (ret tt)
                              (mkLightSt sampleLight false)))) =
  Some (mkTooltip "+5 ft" (_getTextStyleAmbientLight sampleLightHost)
          (mkPoint (1 # 2) 1) (mkPoint 0 (- controlIconSize sampleLightHost / 2))).
Proof.
  destruct (draw_sets_tooltip_once sampleLightHost (ret tt)
              (mkLightSt sampleLight false) (mkLightSt sampleLight false) [] eq_refl)
    as (_ & _ & _ & _ & _ & H & _).
  exact (H eq_refl).
Defined.

(** The sample light once drawn, and then moved to elevation -5. *)
Lemma refresh_updates_tooltip_text_witness :
  tooltip (light (state_of (refreshAmbientLightHook sampleLightHost true
     (mkLightSt (mkLight (Some (-5)%Q)
                   (Some (_drawTooltipAmbientLight sampleLightHost sampleLight)))
        false)))) =
  Some (mkTooltip "-5 ft" (_getTextStyleAmbientLight sampleLightHost)
          (mkPoint (1 # 2) 1) (mkPoint 0 (- controlIconSize sampleLightHost / 2))).
Proof.
  exact (proj1 (proj2 (proj2 (proj2 (proj2
    (refresh_updates_tooltip_text sampleLightHost
       (mkLightSt (mkLight (Some (-5)%Q)
                     (Some (_drawTooltipAmbientLight sampleLightHost sampleLight)))
          false)
       (_drawTooltipAmbientLight sampleLightHost sampleLight) eq_refl)))))).
Defined.

Lemma refresh_needs_drawn_light_witness :
  outcome_of (refreshAmbientLightHook sampleLightHost true (mkLightSt sampleLight false))
    = Throw TypeError.
Proof.
  exact (f_equal outcome_of
           (proj1 (refresh_needs_drawn_light sampleLightHost
                     (mkLightSt sampleLight false) eq_refl))).
Defined.

(** ** Measures on points and segments *)

Lemma Qlt_bool_iff (a b : Q) : Qlt_bool a b = true <-> (a < b)%Q.
Proof.
  unfold Qlt_bool. destruct (Qle_bool b a) eqn:E; cbn [negb].
  - apply Qle_bool_iff in E. split; [discriminate|]. intros H. exfalso. lra.
  - split; [|reflexivity]. intros _. apply Qnot_le_lt. intros H.
    apply Qle_bool_iff in H. congruence.
Qed.

Lemma almostEqual_abs_sym (a b e : Q) : almostEqual_abs a b e = almostEqual_abs b a e.
Proof. unfold almostEqual_abs. now rewrite (Qabs_Qminus a b). Qed.

Lemma almostEqual_abs_refl (a b : Q) : (a == b)%Q -> almostEqual_abs a b EPSILON = true.
Proof.
  intros E. unfold almostEqual_abs.
  destruct (Qle_bool EPSILON (Qabs (a - b))) eqn:E1; [|reflexivity].
  apply Qle_bool_iff in E1.
  assert (a - b == 0)%Q as E0 by (rewrite E; ring).
  rewrite E0 in E1. now vm_compute in E1.
Qed.

Section SegmentMeasureFacts.
Variable almostEqual : Q -> Q -> Q -> bool.
Local Open Scope Q_scope.

(** X21: when numbers that are equal are almost equal, the squared distance
    of two points is never negative, and it is zero exactly for the points
    that [equals] accepts: also for distinct points within the tolerance. *)
Theorem squaredDistance_zero_iff (this p : Point) :
  (forall a b, a == b -> almostEqual a b EPSILON = true) ->
  0 <= squaredDistance almostEqual this p /\
  (squaredDistance almostEqual this p == 0 <->
   equals almostEqual this p EPSILON = true).
Proof.
  intros Hrefl. unfold squaredDistance.
  destruct (equals almostEqual this p EPSILON) eqn:E.
  - split; [apply Qle_refl|]. split; reflexivity.
  - set (dx := px p - px this). set (dy := py p - py this).
    assert (dx ^ 2 == dx * dx) as Ex by ring.
    assert (dy ^ 2 == dy * dy) as Ey by ring.
    assert (0 <= dx * dx) as Hx by nra.
    assert (0 <= dy * dy) as Hy by nra.
    split; [rewrite Ex, Ey; lra|].
    split; [|discriminate].
    rewrite Ex, Ey. intros H0. exfalso.
    assert (dx * dx == 0) as Zx by lra.
    assert (dy * dy == 0) as Zy by lra.
    assert (dx == 0) as Dx.
    { destruct (Qmult_integral _ _ Zx); assumption. }
    assert (dy == 0) as Dy.
    { destruct (Qmult_integral _ _ Zy); assumption. }
    unfold equals in E.
    rewrite (Hrefl (px this) (px p)), (Hrefl (py this) (py p)) in E.
    + discriminate E.
    + unfold dy in Dy. lra.
    + unfold dx in Dx. lra.
Qed.

(** X22: when [almostEqual] does not depend on the order of the two numbers,
    the squared distance does not depend on the order of the two points. *)
Theorem squaredDistance_symmetric (this p : Point) :
  (forall a b, almostEqual a b EPSILON = almostEqual b a EPSILON) ->
  squaredDistance almostEqual this p == squaredDistance almostEqual p this.
Proof.
  intros Hsym. unfold squaredDistance, equals.
  rewrite (Hsym (px this) (px p)), (Hsym (py this) (py p)).
  destruct (_ && _); [reflexivity|ring].
Qed.

(** X23: when [almostEqual] does not depend on the order of the two numbers,
    two segments are equivalent in the same way whichever of them is asked. *)
Theorem equivalent_symmetric (s t : Segment) (eps : Q) :
  (forall a b, almostEqual a b eps = almostEqual b a eps) ->
  equivalent almostEqual s t eps = equivalent almostEqual t s eps.
Proof.
  intros Hsym. unfold equivalent.
  rewrite (Hsym (px (A s)) (px (A t))), (Hsym (py (A s)) (py (A t))),
          (Hsym (px (B s)) (px (B t))), (Hsym (py (B s)) (py (B t))),
          (Hsym (px (A s)) (px (B t))), (Hsym (py (A s)) (py (B t))),
          (Hsym (px (B s)) (px (A t))), (Hsym (py (B s)) (py (A t))).
  destruct (almostEqual (px (A t)) (px (A s)) eps),
           (almostEqual (py (A t)) (py (A s)) eps),
           (almostEqual (px (B t)) (px (B s)) eps),
           (almostEqual (py (B t)) (py (B s)) eps),
           (almostEqual (px (B t)) (px (A s)) eps),
           (almostEqual (py (B t)) (py (A s)) eps),
           (almostEqual (px (A t)) (px (B s)) eps),
           (almostEqual (py (A t)) (py (B s)) eps); reflexivity.
Qed.

(** X24: the answer is 1, -1 or 0; exchanging the endpoints of the segment
    that is asked about turns a -1 into a 1, and keeps a 0 and no other
    answer a 0. A 1 need not become a -1: the first test wins when both
    orders match. *)
Theorem equivalent_reversed (s t : Segment) (eps : Q) :
  In (equivalent almostEqual s t eps) [1%Z; (-1)%Z; 0%Z] /\
  (equivalent almostEqual s t eps = (-1)%Z ->
   equivalent almostEqual s (reversed t) eps = 1%Z) /\
  (equivalent almostEqual s t eps = 0%Z <->
   equivalent almostEqual s (reversed t) eps = 0%Z).
Proof.
  unfold equivalent, reversed. cbn [A B].
  destruct (almostEqual (px (A s)) (px (A t)) eps),
           (almostEqual (py (A s)) (py (A t)) eps),
           (almostEqual (px (B s)) (px (B t)) eps),
           (almostEqual (py (B s)) (py (B t)) eps),
           (almostEqual (px (A s)) (px (B t)) eps),
           (almostEqual (py (A s)) (py (B t)) eps),
           (almostEqual (px (B s)) (px (A t)) eps),
           (almostEqual (py (B s)) (py (A t)) eps);
    cbn; (split; [tauto|split; [congruence|split; congruence]]).
Qed.

(** X25: [contains] returns true only for a point that is almost equal to
    endpoint A and for which [orient2d] reports zero; it returns false
    exactly when [orient2d] reports a value other than zero; for every
    other point, the interior of the segment and endpoint B among them, it
    throws a ReferenceError, because [max] is not defined. *)
Theorem contains_only_near_A (orient2d : Q -> Q -> Q -> Q -> Q -> Q -> Q)
    (s : Segment) (p : Point) (eps : Q) :
  let o := orient2d (px (A s)) (py (A s)) (px p) (py p) (px (B s)) (py (B s)) in
  (contains almostEqual orient2d s p eps = Ret true <->
   o == 0 /\ equals almostEqual p (A s) eps = true) /\
  (contains almostEqual orient2d s p eps = Ret false <-> ~ o == 0) /\
  (contains almostEqual orient2d s p eps = Throw ReferenceError <->
   o == 0 /\ equals almostEqual p (A s) eps = false).
Proof.
  intros o. unfold contains, truthy. fold o.
  rewrite isEndpoint_tests_A_twice, orb_diag.
  destruct (Qeq_bool o 0) eqn:E; cbn [negb].
  - apply Qeq_bool_iff in E.
    destruct (equals almostEqual p (A s) eps); repeat split;
      try discriminate; try tauto; try (intros []; discriminate); intros H; now elim H.
  - assert (~ o == 0) as Hne by (intros H; apply Qeq_bool_iff in H; congruence).
    repeat split; try discriminate; try tauto.
Qed.

End SegmentMeasureFacts.


Lemma squaredDistance_zero_iff_witness :
  (squaredDistance almostEqual_abs (mkPoint 0 0) (mkPoint (1 # 1000000) 0) == 0)%Q /\
  (0 <= squaredDistance almostEqual_abs (mkPoint 0 0) (mkPoint 3 4))%Q.
Proof.
  split.
  - apply (squaredDistance_zero_iff almostEqual_abs (mkPoint 0 0)
             (mkPoint (1 # 1000000) 0) almostEqual_abs_refl).
    reflexivity.
  - apply (squaredDistance_zero_iff almostEqual_abs (mkPoint 0 0) (mkPoint 3 4)
             almostEqual_abs_refl).
Defined.

Lemma squaredDistance_symmetric_witness :
  (squaredDistance almostEqual_abs (mkPoint 0 0) (mkPoint 3 4) ==
   squaredDistance almostEqual_abs (mkPoint 3 4) (mkPoint 0 0))%Q.
Proof.
  apply (squaredDistance_symmetric almostEqual_abs (mkPoint 0 0) (mkPoint 3 4)).
  intros a b. apply almostEqual_abs_sym.
Defined.

Lemma equivalent_symmetric_witness :
  equivalent almostEqual_abs sampleSegment (reversed sampleSegment) EPSILON =
  equivalent almostEqual_abs (reversed sampleSegment) sampleSegment EPSILON.
Proof.
  apply (equivalent_symmetric almostEqual_abs sampleSegment (reversed sampleSegment)
           EPSILON).
  intros a b. apply almostEqual_abs_sym.
Defined.

Lemma equivalent_reversed_witness :
  equivalent almostEqual_abs sampleSegment (reversed (reversed sampleSegment)) EPSILON
    = 1%Z.
Proof.
  apply (equivalent_reversed almostEqual_abs sampleSegment (reversed sampleSegment)
           EPSILON).
  reflexivity.
Defined.


(** The midpoint of the sample segment and its endpoint B, for an
    [orient2d] that reports every three points as collinear. *)
Lemma contains_only_near_A_witness :
  contains almostEqual_abs (fun _ _ _ _ _ _ => 0%Q) sampleSegment (mkPoint 5 0) EPSILON
    = Throw ReferenceError /\
  contains almostEqual_abs (fun _ _ _ _ _ _ => 0%Q) sampleSegment (B sampleSegment) EPSILON
    = Throw ReferenceError.
Proof.
  split.
  - apply (contains_only_near_A almostEqual_abs (fun _ _ _ _ _ _ => 0%Q)
             sampleSegment (mkPoint 5 0) EPSILON).
    split; reflexivity.
  - apply (contains_only_near_A almostEqual_abs (fun _ _ _ _ _ _ => 0%Q)
             sampleSegment (B sampleSegment) EPSILON).
    split; reflexivity.
Defined.
